(** * Task-Analyzer: the priority scoring engine of [tasks/scoring.py]

    A shallow embedding of the scoring module and the properties its
    specification states about it.

    Modelling conventions.
    - Python values that can occur in a raw task record (JSON scalars and
      arrays, plus [date] / [datetime] objects) are the inductive [PyVal].
      Nested JSON objects as field values and non-mapping batch elements are
      outside this universe.
    - A raw task ([Dict[str, Any]]) is a [gmap string PyVal]; [d.get(k, x)]
      is [default x (d !! k)].
    - A Python exception is a value of [PyExc]; a call that may raise
      returns [res A], and an uncaught exception propagates through [≫=].
    - A [str] is a [string] whose characters are the code points below 256,
      one [ascii] each; texts with other characters are outside this
      universe.  The whitespace of [str.strip()] in that range is 9-13,
      28-32, 133 (NEL) and 160 (no-break space).
    - [float] scores are exact rationals ([Q]); every numeric literal of the
      source is a finite decimal, so the arithmetic is the source's
      arithmetic without binary rounding error.  Equalities between scores
      are stated with [==] ([Qeq]).  Where a statement is about rounding
      itself (the tolerance of the weight sums, the scenario's final score)
      the binary64 computation is given next to it, on primitive floats.
      An [int] is unbounded; where float arithmetic takes an [int] operand
      that can exceed the float range, the conversion is [float_of_int] and
      raises [OverflowError] as the interpreter does.
    - A calendar date is its day number ([Z]); [(a - b).days] is [a - b].
      [date.today()] is the section variable [today].
    - [datetime.strptime] and [int] applied to a string are Python library
      functions; they are section variables returning [None] where the
      library raises [ValueError].
    - The interpreter's recursion limit is explicit: [has_cycle] takes the
      number of frames that are still available and raises [RecursionError]
      when none is left.
    - Explanation and warning texts are inductive types, one constructor
      per format string of the source. *)

From Stdlib Require Import ZArith QArith Qround Qminmax Qabs Lqa String Ascii.
From Stdlib Require Import Sorting.Sorted Sorting.Permutation.
From Stdlib Require Import Floats.PrimFloat Numbers.Cyclic.Int63.Uint63.
From stdpp Require Import base option gmap strings list.

Local Open Scope Z_scope.

(** ** Python values *)

Inductive PyFloat : Type :=
| FFin (q : Q)             (* a finite float, by its exact value *)
| FInf (negative : bool)   (* float('inf'), float('-inf') *)
| FNan.                    (* float('nan') *)

#[warnings="-register-all"]
Inductive PyVal : Type :=
| VNone
| VBool (b : bool)
| VInt (z : Z)
| VFloat (f : PyFloat)
| VStr (s : string)
| VDate (d : Z)                (* datetime.date, by day number *)
| VDateTime (d : Z) (t : Z)    (* datetime.datetime: day number, time of day *)
| VList (l : list PyVal).

(** ** Exceptions and the result monad *)

Inductive PyExc : Type :=
| AttributeError | TypeError | ValueError | OverflowError | KeyError
| RecursionError.

Inductive res (A : Type) : Type :=
| Ok (a : A)
| Raise (e : PyExc).
Arguments Ok {A} a.
Arguments Raise {A} e.

Definition res_bind {A B : Type} (f : A → res B) (m : res A) : res B :=
  match m with
  | Ok a => f a
  | Raise e => Raise e
  end.

#[global] Instance res_ret : MRet res := λ A, @Ok A.
#[global] Instance res_mbind : MBind res := λ A B, @res_bind A B.

Definition is_Ok {A : Type} (m : res A) : Prop := ∃ a, m = Ok a.

(** [[f(x) for x in l]] where [f] may raise: left to right, stopping at the
    first exception. *)
Fixpoint res_mapM {A B : Type} (f : A → res B) (l : list A) : res (list B) :=
  match l with
  | [] => Ok []
  | x :: l' => y ← f x; ys ← res_mapM f l'; Ok (y :: ys)
  end.

(** ** Built-in operations of Python used by the module *)

(** The number a [bool], [int] or [float] stands for. *)
Definition as_number (v : PyVal) : option PyFloat :=
  match v with
  | VBool b => Some (FFin (inject_Z (Z.b2z b)))
  | VInt z => Some (FFin (inject_Z z))
  | VFloat f => Some f
  | _ => None
  end.

Definition float_eqb (f g : PyFloat) : bool :=
  match f, g with
  | FFin p, FFin q => Qeq_bool p q
  | FInf a, FInf b => Bool.eqb a b
  | _, _ => false
  end.

(** [x == y].  Numbers compare by value across [bool], [int] and [float]
    ([True == 1 == 1.0]); [nan] is equal to nothing. *)
Fixpoint py_eq (x y : PyVal) : bool :=
  match x, y with
  | VNone, VNone => true
  | VStr s, VStr t => String.eqb s t
  | VDate d, VDate e => d =? e
  | VDateTime d t, VDateTime e u => (d =? e) && (t =? u)
  | VList l, VList k =>
      (fix list_eq (l k : list PyVal) {struct l} : bool :=
         match l, k with
         | [], [] => true
         | a :: l', b :: k' => py_eq a b && list_eq l' k'
         | _, _ => false
         end) l k
  | _, _ =>
      match as_number x, as_number y with
      | Some f, Some g => float_eqb f g
      | _, _ => false
      end
  end.

(** [x in l] for a list [l]. *)
Definition py_mem (x : PyVal) (l : list PyVal) : bool :=
  existsb (λ item, py_eq item x) l.

(** [hash(x)] succeeds: lists are the unhashable values of the universe. *)
Definition hashable (v : PyVal) : bool :=
  match v with
  | VList _ => false
  | _ => true
  end.

(** [bool(x)]. *)
Definition py_truthy (v : PyVal) : bool :=
  match v with
  | VNone => false
  | VBool b => b
  | VInt z => negb (z =? 0)
  | VFloat (FFin q) => negb (Qeq_bool q 0)
  | VFloat _ => true
  | VStr s => negb (String.eqb s "")
  | VDate _ | VDateTime _ _ => true
  | VList l => match l with [] => false | _ => true end
  end.

(** [c.isspace()], the characters removed by [str.strip()]: the code points
    9-13, 28-32, 133 and 160. *)
Definition is_space (c : ascii) : bool :=
  let n := Z.of_nat (nat_of_ascii c) in
  ((9 <=? n) && (n <=? 13)) || ((28 <=? n) && (n <=? 32))
  || (n =? 133) || (n =? 160).

Fixpoint lstrip (s : string) : string :=
  match s with
  | EmptyString => EmptyString
  | String c s' => if is_space c then lstrip s' else s
  end.

Fixpoint rstrip (s : string) : string :=
  match s with
  | EmptyString => EmptyString
  | String c s' =>
      match rstrip s' with
      | EmptyString => if is_space c then EmptyString else String c EmptyString
      | r => String c r
      end
  end.

Definition strip (s : string) : string := rstrip (lstrip s).

(** [x.strip()]: only [str] has the method in this universe. *)
Definition py_strip (v : PyVal) : res string :=
  match v with
  | VStr s => Ok (strip s)
  | _ => Raise AttributeError
  end.

(** [s in t] for strings: [s] occurs in [t]. *)
Fixpoint is_substring (s t : string) : bool :=
  String.prefix s t ||
  match t with
  | EmptyString => false
  | String _ t' => is_substring s t'
  end.

(** [x in c] for an arbitrary container value [c]. *)
Definition py_contains (x c : PyVal) : res bool :=
  match c with
  | VList l => Ok (py_mem x l)
  | VStr t =>
      match x with
      | VStr s => Ok (is_substring s t)
      | _ => Raise TypeError
      end
  | _ => Raise TypeError
  end.

(** [for x in c]: the items an iteration over [c] yields. *)
Definition py_iter (c : PyVal) : res (list PyVal) :=
  match c with
  | VList l => Ok l
  | VStr s => Ok (map (λ a, VStr (String a EmptyString)) (list_ascii_of_string s))
  | _ => Raise TypeError
  end.

(** An [int] operand of float arithmetic ([28.0 - n]) is converted to a
    float first.  From the magnitude [2^1024 - 2^970] on, the nearest
    binary64 value is out of range and the conversion raises
    [OverflowError: int too large to convert to float]; below, the float is
    taken by its exact value, as all floats are. *)
Definition float_int_bound : Z := 2 ^ 1024 - 2 ^ 970.

Definition float_of_int (n : Z) : res Q :=
  if Z.abs n <? float_int_bound then Ok (inject_Z n)
  else Raise OverflowError.

(** [int(x)] for a non-string [x]; the string case is [int_of_str] below. *)
Definition int_of_float (f : PyFloat) : res Z :=
  match f with
  | FFin q => Ok (Z.quot (Qnum q) (Z.pos (Qden q)))   (* truncation toward 0 *)
  | FInf _ => Raise OverflowError
  | FNan => Raise ValueError
  end.

(** [d[k]]: a missing key raises [KeyError]. *)
Definition subscript {V : Type} (d : gmap string V) (k : string) : res V :=
  match d !! k with
  | Some v => Ok v
  | None => Raise KeyError
  end.

(** [l.index(x)]: the first position of [x], [ValueError] when absent. *)
Fixpoint list_index (x : PyVal) (l : list PyVal) : res nat :=
  match l with
  | [] => Raise ValueError
  | y :: l' => if py_eq y x then Ok O else i ← list_index x l'; Ok (S i)
  end.

(** [round(x, 2)] on the exact value: nearest multiple of 0.01, ties to
    the even one. *)
Definition round_half_even (x : Q) : Z :=
  let f := Qfloor x in
  let r := (x - inject_Z f)%Q in
  match (r ?= 1 # 2)%Q with
  | Lt => f
  | Gt => f + 1
  | Eq => if Z.even f then f else f + 1
  end.

Definition round2 (x : Q) : Q := Qmake (round_half_even (x * 100)%Q) 100.

(** ** Data model *)

(** A raw task record as it arrives from the caller. *)
Abbreviation RawTask := (gmap string PyVal).

(** The warnings of [validate_task_data], by message. *)
Inductive DataWarning : Type :=
| MissingTitle                      (* Missing title - defaulted to ... *)
| InvalidDateFormat (raw : PyVal)   (* Invalid date format: {raw_date} *)
| ImportanceBelow1                  (* Importance below 1 - clamped to 1 *)
| ImportanceAbove10                 (* Importance above 10 - clamped to 10 *)
| InvalidImportance                 (* Invalid importance value - defaulted to 5 *)
| InvalidHours                      (* Invalid hours - converted to positive *)
| InvalidEstimatedHours             (* Invalid estimated_hours - defaulted to 2 *)
| InvalidDependencies.              (* Invalid dependencies format - ... *)

(** The dictionary [normalized] built by [validate_task_data]. *)
Record NormalizedTask : Type := {
  n_title : string;
  n_due_date : option Z;
  n_importance : Z;
  n_estimated_hours : Z;
  n_dependencies : list PyVal;
  n_id : option PyVal;              (* the key is present only if the raw task has it *)
}.

Inductive UrgencyExp : Type :=
| NoDeadline               (* No deadline set - medium urgency assumed *)
| Overdue (days : Z)       (* WARNING: OVERDUE by {days} day(s)! *)
| DueToday                 (* Due TODAY - urgent! *)
| DueTomorrow              (* Due tomorrow - very urgent *)
| DueUrgent (days : Z)     (* Due in {days} days - urgent *)
| DueApproaching (days : Z)(* Due in {days} days - approaching *)
| DueIn (days : Z)         (* Due in {days} days *)
| DueNotUrgent (days : Z)  (* Due in {days} days - not urgent *)
| DueLowUrgency (days : Z). (* Due in {days} days - low urgency *)

Inductive ImportanceExp : Type :=
| CriticalPriority | HighPriority | MediumPriority | LowPriority
| MinimalPriority.

Inductive EffortExp : Type :=
| SuperQuick               (* Super quick task! *)
| QuickWin (h : Z)         (* Quick win ({h}h) *)
| ModerateEffort (h : Z)   (* Moderate effort ({h}h) *)
| SignificantEffort (h : Z)(* Significant effort ({h}h) *)
| MajorEffort (h : Z).     (* Major effort ({h}h) *)

(** The items joined by ["; "] into the dependency explanation; the empty
    list stands for the text [No dependencies]. *)
Inductive DependencyExp : Type :=
| BlockedBy (n : nat)      (* Blocked by {n} task(s) *)
| AllDepsComplete          (* All dependencies complete *)
| Blocks (n : nat).        (* Blocks {n} other task(s) *)

Inductive PriorityLevel : Type := CRITICAL | HIGH | MEDIUM | LOW | MINIMAL.

#[global] Instance PriorityLevel_eq_dec : EqDecision PriorityLevel.
Proof. solve_decision. Defined.

(** ** Strategy table *)

Record StrategyProfile : Type := {
  w_urgency : Q;
  w_importance : Q;
  w_effort : Q;
  w_dependency : Q;
  description : string;
}.

Definition strategy_entries : list (string * StrategyProfile) :=
  [ ("balanced",
      {| w_urgency := 0.35; w_importance := 0.30; w_effort := 0.20;
         w_dependency := 0.15;
         description := "Balanced consideration of all factors" |});
    ("smart_balance",
      {| w_urgency := 0.35; w_importance := 0.30; w_effort := 0.20;
         w_dependency := 0.15;
         description := "Balanced consideration of all factors" |});
    ("deadline_driven",
      {| w_urgency := 0.55; w_importance := 0.25; w_effort := 0.10;
         w_dependency := 0.10;
         description := "Prioritize tasks with approaching deadlines" |});
    ("high_impact",
      {| w_urgency := 0.20; w_importance := 0.50; w_effort := 0.15;
         w_dependency := 0.15;
         description := "Focus on high-importance tasks first" |});
    ("fastest_wins",
      {| w_urgency := 0.20; w_importance := 0.20; w_effort := 0.45;
         w_dependency := 0.15;
         description := "Prioritize quick tasks to build momentum" |}) ].

Definition STRATEGY_WEIGHTS : gmap string StrategyProfile :=
  list_to_map strategy_entries.

Definition weights_sum (p : StrategyProfile) : Q :=
  (w_urgency p + w_importance p + w_effort p + w_dependency p)%Q.

(** The binary64 value of a decimal literal [n/d] with [n], [d] below
    [2^53]: the correctly rounded quotient, which is the float Python reads
    the literal as. *)
Definition binary64 (q : Q) : float :=
  let num := PrimFloat.of_uint63 (Uint63.of_Z (Z.abs (Qnum q))) in
  let den := PrimFloat.of_uint63 (Uint63.of_Z (Z.pos (Qden q))) in
  if (Qnum q <? 0)%Z then PrimFloat.opp (PrimFloat.div num den)
  else PrimFloat.div num den.

(** The sum of the four weights as Python adds floats, left to right. *)
Definition weights_sum_binary64 (p : StrategyProfile) : float :=
  (binary64 (w_urgency p) + binary64 (w_importance p) +
   binary64 (w_effort p) + binary64 (w_dependency p))%float.

(** [abs(x - 1.0) <= 1e-9] on floats. *)
Definition close_to_one (x : float) : bool :=
  PrimFloat.leb (PrimFloat.abs (x - 1)%float) (binary64 (1 # 1000000000)).

(** ** Results *)

Record ScoreBreakdown : Type := {
  sb_urgency : Q;
  sb_importance : Q;
  sb_effort : Q;
  sb_dependency : Q;
}.

Record Explanations : Type := {
  ex_urgency : UrgencyExp;
  ex_importance : ImportanceExp;
  ex_effort : EffortExp;
  ex_dependency : list DependencyExp;
}.

(** The dictionary returned by [calculate_task_score].  [normalized] holds
    the keys copied by [**normalized] (its [n_due_date] is the date whose
    ISO text the result carries); [warnings] and [rank] are keys that may
    be absent. *)
Record ScoredTask : Type := {
  normalized : NormalizedTask;
  score : Q;
  priority_level : PriorityLevel;
  score_breakdown : ScoreBreakdown;
  explanations : Explanations;
  strategy_used : string;
  warnings : option (list DataWarning);
  rank : option nat;
}.

(** A warning of the cycle detector: [type] is always
    [circular_dependency] and [message] is the arrow-joined text of
    [tasks]. *)
Record CycleWarning : Type := { cw_tasks : list PyVal }.

Inductive Summary : Type :=
| EmptySummary            (* total 0, message: No tasks to analyze *)
| FullSummary (total : nat) (by_priority : list (PriorityLevel * nat))
    (critical_count high_count overdue_count : nat)
    (cycle_warnings : list CycleWarning)
    (strategy strategy_description : string).

Record BatchResult : Type := {
  br_tasks : list ScoredTask;
  br_summary : Summary;
  br_warnings : list CycleWarning;
}.

(** ** Suggestions *)

(** The entries of a suggestion's [why] list, by text. *)
Inductive Reason : Type :=
| WhyUrgency (e : UrgencyExp)            (* the urgency explanation itself *)
| WhyDueToday                            (* Due today! *)
| WhyDueTomorrow                         (* Due tomorrow *)
| WhyHighImportance (importance : Z)     (* High importance ({importance}/10) *)
| WhyQuickWin (hours : Z)                (* Quick win - only {hours}h *)
| WhyDependency (e : list DependencyExp) (* the dependency explanation itself *)
| WhyBalanced.                           (* Balanced priority based on all factors *)

(** The texts returned by [generate_action_advice]. *)
Inductive ActionAdvice : Type :=
| AdviceUrgent      (* URGENT: Complete this immediately; ... *)
| AdviceDoFirst     (* High priority and quick - do this first thing. *)
| AdviceBlockTime   (* Block time today to make significant progress. *)
| AdviceSchedule    (* Schedule dedicated time for this task this week. *)
| AdviceRadar       (* Keep on your radar - tackle after higher priorities. *)
| AdviceLater.      (* Lower priority - address when higher items are done. *)

(** The overall message of [get_top_suggestions]. *)
Inductive FocusMessage : Type :=
| NoTasksToSuggest           (* No tasks to suggest. Add some tasks first! *)
| OverdueFocus (n : nat)     (* WARNING: You have {n} overdue task(s). ... *)
| CriticalFocus (n : nat)    (* CRITICAL: {n} critical task(s) need attention today. *)
| HighFocus (n : nat)        (* NOTICE: {n} high-priority task(s) to tackle. *)
| NoUrgentTasks.             (* No urgent tasks. Great time for deep work ... *)

(** A suggestion: the keys of the scored task ([**task]) and three more. *)
Record Suggestion : Type := {
  sg_task : ScoredTask;
  suggestion_rank : nat;
  why : list Reason;
  action : ActionAdvice;
}.

(** The dictionary returned by [get_top_suggestions]; the key
    [all_tasks_analyzed] is absent from the result for no tasks. *)
Record TopSuggestions : Type := {
  ts_suggestions : list Suggestion;
  ts_message : FocusMessage;
  ts_summary : Summary;
  ts_all_tasks_analyzed : option nat;
}.

(** ** The engine *)

Section Engine.

(** [date.today()]. *)
Variable today : Z.

(** [datetime.strptime(s, fmt).date()], [None] where it raises [ValueError]. *)
Variable strptime : string → string → option Z.

(** [int(s)] for a string [s], [None] where it raises [ValueError]. *)
Variable int_of_str : string → option Z.

(** Frames left on the interpreter stack when [has_cycle] is first entered. *)
Variable recursion_limit : nat.

(** [int(x)]. *)
Definition py_int (v : PyVal) : res Z :=
  match v with
  | VBool b => Ok (Z.b2z b)
  | VInt z => Ok z
  | VFloat f => int_of_float f
  | VStr s =>
      match int_of_str s with
      | Some z => Ok z
      | None => Raise ValueError
      end
  | VNone | VDate _ | VDateTime _ _ | VList _ => Raise TypeError
  end.

(** *** Helper functions *)

Definition date_formats : list string :=
  [ "%Y-%m-%d"; "%m/%d/%Y"; "%d-%m-%Y"; "%Y/%m/%d"; "%d/%m/%Y" ].

(** The [for fmt in date_formats] loop: the first format that parses. *)
Fixpoint try_formats (s : string) (fmts : list string) : option Z :=
  match fmts with
  | [] => None
  | fmt :: fmts' =>
      match strptime (strip s) fmt with
      | Some d => Some d
      | None => try_formats s fmts'
      end
  end.

Definition parse_date (date_input : PyVal) : option Z :=
  match date_input with
  | VNone => None
  | VDate d => Some d
  | VDateTime d _ => Some d
  | VStr s => try_formats s date_formats
  | _ => None
  end.

(** The [try: ... except (ValueError, TypeError): ...] of the importance
    and hours fields: the handler's value replaces these two exceptions,
    any other exception propagates. *)
Definition except_value_type {A : Type} (body : res A) (handler : A) : res A :=
  match body with
  | Ok a => Ok a
  | Raise ValueError | Raise TypeError => Ok handler
  | Raise e => Raise e
  end.

Definition validate_task_data (task : RawTask)
  : res (NormalizedTask * list DataWarning) :=
  (* Title *)
  title ← py_strip (default (VStr "") (task !! "title"));
  let '(title, w_title) :=
    if String.eqb title "" then ("Untitled Task"%string, [MissingTitle])
    else (title, []) in
  (* Due date *)
  let raw_date := default VNone (task !! "due_date") in
  let due_date := parse_date raw_date in
  let w_date :=
    if py_truthy raw_date && bool_decide (due_date = None)
    then [InvalidDateFormat raw_date] else [] in
  (* Importance (1-10) *)
  '(importance, w_imp) ←
    except_value_type
      (importance ← py_int (default (VInt 5) (task !! "importance"));
       if importance <? 1 then Ok (1, [ImportanceBelow1])
       else if 10 <? importance then Ok (10, [ImportanceAbove10])
       else Ok (importance, []))
      (5, [InvalidImportance]);
  (* Estimated hours *)
  '(hours, w_hours) ←
    except_value_type
      (hours ← py_int (default (VInt 2) (task !! "estimated_hours"));
       if hours <=? 0
       then Ok (if negb (hours =? 0) then Z.abs hours else 2, [InvalidHours])
       else Ok (hours, []))
      (2, [InvalidEstimatedHours]);
  (* Dependencies *)
  let '(deps, w_deps) :=
    match default (VList []) (task !! "dependencies") with
    | VList l => (l, [])
    | _ => ([], [InvalidDependencies])
    end in
  Ok ({| n_title := title; n_due_date := due_date; n_importance := importance;
         n_estimated_hours := hours; n_dependencies := deps;
         n_id := task !! "id" |},
      w_title ++ w_date ++ w_imp ++ w_hours ++ w_deps).

(** *** Scoring functions *)

Definition calculate_urgency_score (due_date : option Z) : Q * UrgencyExp :=
  match due_date with
  | None => (30.0%Q, NoDeadline)
  | Some due_date =>
      let days_until := due_date - today in
      if days_until <? 0 then
        let days_overdue := Z.abs days_until in
        (Qmin 100.0 (100.0 + inject_Z days_overdue * 0.5)%Q,
         Overdue days_overdue)
      else if days_until =? 0 then (95.0%Q, DueToday)
      else if days_until =? 1 then (85.0%Q, DueTomorrow)
      else if days_until <=? 3 then
        ((80.0 - inject_Z ((days_until - 1) * 5))%Q, DueUrgent days_until)
      else if days_until <=? 7 then
        ((65.0 - inject_Z ((days_until - 3) * 6))%Q, DueApproaching days_until)
      else if days_until <=? 14 then
        ((35.0 - inject_Z ((days_until - 7) * 2))%Q, DueIn days_until)
      else if days_until <=? 30 then
        (Qmax 10.0 (20.0 - inject_Z (days_until - 14) * 0.5)%Q,
         DueNotUrgent days_until)
      else (5.0%Q, DueLowUrgency days_until)
  end.

Definition calculate_importance_score (importance : Z) : Q * ImportanceExp :=
  let base_score := importance * 10 in
  let base_score :=
    if 8 <=? importance
    then Z.min 100 (base_score + (importance - 7) ^ 2 * 3)
    else base_score in
  let desc :=
    if 9 <=? importance then CriticalPriority
    else if 7 <=? importance then HighPriority
    else if 5 <=? importance then MediumPriority
    else if 3 <=? importance then LowPriority
    else MinimalPriority in
  (inject_Z base_score, desc).

(** In the bands up to eight hours the integer subtracted from the float is
    at most 20; for long tasks it is unbounded and its conversion can
    raise. *)
Definition calculate_effort_score (estimated_hours : Z) : res (Q * EffortExp) :=
  if estimated_hours <? 1 then Ok (100.0%Q, SuperQuick)
  else if estimated_hours <=? 2 then
    Ok ((85.0 - inject_Z ((estimated_hours - 1) * 10))%Q,
        QuickWin estimated_hours)
  else if estimated_hours <=? 4 then
    Ok ((75.0 - inject_Z ((estimated_hours - 2) * 10))%Q,
        ModerateEffort estimated_hours)
  else if estimated_hours <=? 8 then
    Ok ((55.0 - inject_Z ((estimated_hours - 4) * 5))%Q,
        SignificantEffort estimated_hours)
  else
    (* Long tasks *)
    excess ← float_of_int ((estimated_hours - 8) * 2);
    Ok (Qmax 10.0 (28.0 - excess)%Q, MajorEffort estimated_hours).

(** The loop counting the tasks of [all_tasks] whose raw [dependencies]
    value contains [task_id]; [task_id in task_deps] raises on a value
    that is no container. *)
Fixpoint blocked_count (task_id : PyVal) (all_tasks : list RawTask) : res nat :=
  match all_tasks with
  | [] => Ok O
  | task :: rest =>
      let task_deps := default (VList []) (task !! "dependencies") in
      hit ← py_contains task_id task_deps;
      n ← blocked_count task_id rest;
      Ok (if hit : bool then S n else n)
  end.

Definition calculate_dependency_score (task_id : PyVal)
    (dependencies : list PyVal) (all_tasks : list RawTask)
    (completed_ids : option (list PyVal)) : res (Q * list DependencyExp) :=
  let completed_ids := default [] completed_ids in
  let score := 70.0%Q in
  (* Check if this task is blocked *)
  let '(score, exp_deps) :=
    match dependencies with
    | [] => (score, [])
    | _ =>
        let unmet := filter (λ d, negb (py_mem d completed_ids)) dependencies in
        match unmet with
        | _ :: _ =>
            let block_penalty := Z.min 50 (Z.of_nat (length unmet) * 20) in
            ((score - inject_Z block_penalty)%Q, [BlockedBy (length unmet)])
        | [] => ((score + 10)%Q, [AllDepsComplete])
        end
    end in
  (* Check if this task blocks others *)
  '(score, exp_blocks) ←
    match task_id with
    | VNone => Ok (score, [])
    | _ =>
        n ← blocked_count task_id all_tasks;
        if (0 <? n)%nat then
          let blocker_bonus := Z.min 30 (Z.of_nat n * 15) in
          Ok ((score + inject_Z blocker_bonus)%Q, [Blocks n])
        else Ok (score, [])
    end;
  Ok (Qmax 0 (Qmin 100 score), exp_deps ++ exp_blocks).

(** *** Circular dependency detection *)

(** [task_map]: a dictionary keyed by task ids, in insertion order. *)
Fixpoint dict_set (k : PyVal) (v : RawTask) (d : list (PyVal * RawTask))
  : list (PyVal * RawTask) :=
  match d with
  | [] => [(k, v)]
  | (k', v') :: d' =>
      if py_eq k' k then (k', v) :: d' else (k', v') :: dict_set k v d'
  end.

Fixpoint dict_get (k : PyVal) (d : list (PyVal * RawTask)) : option RawTask :=
  match d with
  | [] => None
  | (k', v) :: d' => if py_eq k' k then Some v else dict_get k d'
  end.

(** [{t.get('id'): t for t in tasks if t.get('id') is not None}]. *)
Fixpoint build_task_map (tasks : list RawTask) (acc : list (PyVal * RawTask))
  : res (list (PyVal * RawTask)) :=
  match tasks with
  | [] => Ok acc
  | t :: rest =>
      match default VNone (t !! "id") with
      | VNone => build_task_map rest acc
      | k =>
          if hashable k then build_task_map rest (dict_set k t acc)
          else Raise TypeError
      end
  end.

(** The two sets shared by all calls of [has_cycle]. *)
Record dfs_state : Type := {
  visited : list PyVal;
  rec_stack : list PyVal;
}.

(** [s.remove(x)]: [KeyError] when [x] is not a member. *)
Definition set_remove (x : PyVal) (s : list PyVal) : res (list PyVal) :=
  if py_mem x s then Ok (List.filter (λ y, negb (py_eq y x)) s)
  else Raise KeyError.

Fixpoint has_cycle (depth : nat) (task_map : list (PyVal * RawTask))
    (task_id : PyVal) (path : list PyVal) (st : dfs_state)
  : res (option (list PyVal) * dfs_state) :=
  match depth with
  | O => Raise RecursionError
  | S depth' =>
      if negb (hashable task_id) then Raise TypeError
      else if py_mem task_id (rec_stack st) then
        i ← list_index task_id path;
        Ok (Some (drop i path ++ [task_id]), st)
      else if py_mem task_id (visited st) then Ok (None, st)
      else
        let st := {| visited := task_id :: visited st;
                     rec_stack := task_id :: rec_stack st |} in
        '(result, st) ←
          match dict_get task_id task_map with
          | Some task =>
              if negb (size task =? 0)%nat then
                deps ← py_iter (default (VList []) (task !! "dependencies"));
                (fix for_deps (deps : list PyVal) (st : dfs_state)
                   : res (option (list PyVal) * dfs_state) :=
                   match deps with
                   | [] => Ok (None, st)
                   | dep_id :: deps' =>
                       '(result, st) ←
                         has_cycle depth' task_map dep_id (path ++ [task_id]) st;
                       match result with
                       | Some cycle => Ok (Some cycle, st)   (* return result *)
                       | None => for_deps deps' st
                       end
                   end) deps st
              else Ok (None, st)
          | None => Ok (None, st)
          end;
        match result with
        | Some cycle => Ok (Some cycle, st)
        | None =>
            rs ← set_remove task_id (rec_stack st);
            Ok (None, {| visited := visited st; rec_stack := rs |})
        end
  end.

(** The loop [for task_id in task_map] of [detect_circular_dependencies]. *)
Fixpoint detect_loop (task_map : list (PyVal * RawTask)) (keys : list PyVal)
    (st : dfs_state) : res (list CycleWarning) :=
  match keys with
  | [] => Ok []
  | task_id :: keys' =>
      if negb (py_mem task_id (visited st)) then
        '(cycle, st) ← has_cycle recursion_limit task_map task_id [] st;
        ws ← detect_loop task_map keys' st;
        match cycle with
        | Some cycle => Ok ({| cw_tasks := cycle |} :: ws)
        | None => Ok ws
        end
      else detect_loop task_map keys' st
  end.

Definition detect_circular_dependencies (tasks : list RawTask)
  : res (list CycleWarning) :=
  task_map ← build_task_map tasks [];
  detect_loop task_map (map fst task_map) {| visited := []; rec_stack := [] |}.

(** *** Main scoring function *)

Definition level_of (final_score : Q) : PriorityLevel :=
  if Qle_bool 75 final_score then CRITICAL
  else if Qle_bool 60 final_score then HIGH
  else if Qle_bool 40 final_score then MEDIUM
  else if Qle_bool 25 final_score then LOW
  else MINIMAL.

(** [STRATEGY_WEIGHTS.get(strategy, STRATEGY_WEIGHTS[fallback])]: the
    default is a subscript evaluated before the call. *)
Definition strategy_get (strategy fallback : string) : res StrategyProfile :=
  dflt ← subscript STRATEGY_WEIGHTS fallback;
  Ok (default dflt (STRATEGY_WEIGHTS !! strategy)).

(** [weighted_sum] below, as the interpreter computes it on floats. *)
Definition weighted_sum_binary64 (weights : StrategyProfile)
    (urgency_score importance_score effort_score dependency_score : float)
  : float :=
  (urgency_score * binary64 (w_urgency weights) +
   importance_score * binary64 (w_importance weights) +
   effort_score * binary64 (w_effort weights) +
   dependency_score * binary64 (w_dependency weights))%float.

Definition weighted_sum (weights : StrategyProfile)
    (urgency_score importance_score effort_score dependency_score : Q) : Q :=
  (urgency_score * w_urgency weights +
   importance_score * w_importance weights +
   effort_score * w_effort weights +
   dependency_score * w_dependency weights)%Q.

Definition calculate_task_score (task : RawTask)
    (all_tasks : option (list RawTask)) (strategy : string)
    (completed_ids : option (list PyVal)) : res ScoredTask :=
  let all_tasks := default [] all_tasks in
  let completed_ids := default [] completed_ids in
  (* Validate and normalize input *)
  '(normalized, data_warnings) ← validate_task_data task;
  (* Get strategy weights *)
  weights ← strategy_get strategy "smart_balance";
  (* Calculate component scores *)
  let '(urgency_score, urgency_exp) :=
    calculate_urgency_score (n_due_date normalized) in
  let '(importance_score, importance_exp) :=
    calculate_importance_score (n_importance normalized) in
  '(effort_score, effort_exp) ←
    calculate_effort_score (n_estimated_hours normalized);
  '(dependency_score, dependency_exp) ←
    calculate_dependency_score (default VNone (n_id normalized))
      (n_dependencies normalized) all_tasks (Some completed_ids);
  (* Calculate weighted final score *)
  let final_score :=
    weighted_sum weights urgency_score importance_score effort_score
      dependency_score in
  Ok {| normalized := normalized;
        score := round2 final_score;
        priority_level := level_of final_score;
        score_breakdown :=
          {| sb_urgency := round2 urgency_score;
             sb_importance := round2 importance_score;
             sb_effort := round2 effort_score;
             sb_dependency := round2 dependency_score |};
        explanations :=
          {| ex_urgency := urgency_exp; ex_importance := importance_exp;
             ex_effort := effort_exp; ex_dependency := dependency_exp |};
        strategy_used := strategy;
        warnings := match data_warnings with [] => None | ws => Some ws end;
        rank := None |}.

(** *** Batch analysis *)

(** [l.sort(key=..., reverse=True)]: the stable sort by descending key.
    An element is placed before the first element whose key is not
    greater than its own, so equal keys keep their input order. *)
Fixpoint insert_desc {A : Type} (key : A → Q) (x : A) (l : list A) : list A :=
  match l with
  | [] => [x]
  | y :: l' =>
      if Qle_bool (key y) (key x) then x :: l
      else y :: insert_desc key x l'
  end.

Definition sort_desc {A : Type} (key : A → Q) (l : list A) : list A :=
  foldr (insert_desc key) [] l.

(** [x] may come before [y] in a descending order: its key is not smaller. *)
Definition desc {A : Type} (key : A → Q) (x y : A) : Prop :=
  (key y <= key x)%Q.

Definition set_rank (i : nat) (t : ScoredTask) : ScoredTask :=
  {| normalized := normalized t; score := score t;
     priority_level := priority_level t;
     score_breakdown := score_breakdown t; explanations := explanations t;
     strategy_used := strategy_used t; warnings := warnings t;
     rank := Some i |}.

(** [for i, task in enumerate(scored_tasks, 1): task['rank'] = i]. *)
Definition add_ranks (scored_tasks : list ScoredTask) : list ScoredTask :=
  imap (λ i t, set_rank (S i) t) scored_tasks.

Definition is_overdue (e : UrgencyExp) : bool :=
  match e with
  | Overdue _ => true       (* the only text containing OVERDUE *)
  | _ => false
  end.

(** [by_priority[level] = by_priority.get(level, 0) + 1]. *)
Fixpoint count_level (level : PriorityLevel) (d : list (PriorityLevel * nat))
  : list (PriorityLevel * nat) :=
  match d with
  | [] => [(level, 1%nat)]
  | (l, n) :: d' =>
      if decide (l = level) then (l, S n) :: d' else (l, n) :: count_level level d'
  end.

Definition level_count (level : PriorityLevel) (d : list (PriorityLevel * nat))
  : nat :=
  default O (snd <$> List.find (λ e, bool_decide (fst e = level)) d).

Definition analyze_tasks (tasks : list RawTask) (strategy : string)
    (completed_ids : option (list PyVal)) : res BatchResult :=
  match tasks with
  | [] => Ok {| br_tasks := []; br_summary := EmptySummary; br_warnings := [] |}
  | _ =>
      (* Detect circular dependencies *)
      dep_warnings ← detect_circular_dependencies tasks;
      (* Score all tasks *)
      scored_tasks ←
        res_mapM (λ task, calculate_task_score task (Some tasks) strategy
                            completed_ids) tasks;
      (* Sort by score (highest first) *)
      let scored_tasks := sort_desc score scored_tasks in
      (* Add rank *)
      let scored_tasks := add_ranks scored_tasks in
      (* Generate summary *)
      let total := length scored_tasks in
      let overdue :=
        length (List.filter (λ t, is_overdue (ex_urgency (explanations t)))
                  scored_tasks) in
      (* the first [summary] dictionary: STRATEGY_WEIGHTS[strategy] *)
      _ ← subscript STRATEGY_WEIGHTS strategy;
      let by_priority :=
        foldl (λ d t, count_level (priority_level t) d) [] scored_tasks in
      (* the second [summary] dictionary, which replaces the first *)
      profile ← strategy_get strategy "balanced";
      Ok {| br_tasks := scored_tasks;
            br_summary :=
              FullSummary total by_priority
                (level_count CRITICAL by_priority)
                (level_count HIGH by_priority)
                overdue dep_warnings strategy (description profile);
            br_warnings := dep_warnings |}
  end.

(** *** Suggestions *)

(** [l[:count]]: a negative [count] counts from the end of the list. *)
Definition py_take {A : Type} (count : Z) (l : list A) : list A :=
  if 0 <=? count then take (Z.to_nat count) l
  else take (length l - Z.to_nat (- count)) l.

Definition is_due_today (e : UrgencyExp) : bool :=
  match e with
  | DueToday => true        (* the only text containing today *)
  | _ => false
  end.

Definition is_due_tomorrow (e : UrgencyExp) : bool :=
  match e with
  | DueTomorrow => true     (* the only text containing tomorrow *)
  | _ => false
  end.

(** ['Blocks' in exp['dependency']]: the joined text contains it exactly
    when a [Blocks] item was joined. *)
Definition mentions_blocks (e : list DependencyExp) : bool :=
  existsb (λ x, match x with Blocks _ => true | _ => false end) e.

Definition generate_action_advice (task : ScoredTask) : ActionAdvice :=
  let score := score task in
  let hours := n_estimated_hours (normalized task) in
  if is_overdue (ex_urgency (explanations task)) then AdviceUrgent
  else if Qle_bool 75 score then
    if hours <=? 2 then AdviceDoFirst else AdviceBlockTime
  else if Qle_bool 60 score then AdviceSchedule
  else if Qle_bool 40 score then AdviceRadar
  else AdviceLater.

(** The [reasons] list built for one of the top tasks. *)
Definition suggestion_reasons (task : ScoredTask) : list Reason :=
  let exp := explanations task in
  let r_urgency :=
    if is_overdue (ex_urgency exp) then [WhyUrgency (ex_urgency exp)]
    else if is_due_today (ex_urgency exp) then [WhyDueToday]
    else if is_due_tomorrow (ex_urgency exp) then [WhyDueTomorrow]
    else [] in
  let r_importance :=
    if 8 <=? n_importance (normalized task)
    then [WhyHighImportance (n_importance (normalized task))] else [] in
  let r_effort :=
    if n_estimated_hours (normalized task) <=? 2
    then [WhyQuickWin (n_estimated_hours (normalized task))] else [] in
  let r_dependency :=
    if mentions_blocks (ex_dependency exp)
    then [WhyDependency (ex_dependency exp)] else [] in
  r_urgency ++ r_importance ++ r_effort ++ r_dependency.

Definition make_suggestion (i : nat) (task : ScoredTask) : Suggestion :=
  let reasons := suggestion_reasons task in
  {| sg_task := task;
     suggestion_rank := i;
     why := match reasons with [] => [WhyBalanced] | _ => reasons end;
     action := generate_action_advice task |}.

(** The overall message; a summary without the count keys (the one of an
    empty analysis) has no [overdue_count] to subscript. *)
Definition focus_message (summary : Summary) : res FocusMessage :=
  match summary with
  | EmptySummary => Raise KeyError
  | FullSummary _ _ critical_count high_count overdue_count _ _ _ =>
      if (0 <? overdue_count)%nat then Ok (OverdueFocus overdue_count)
      else if (0 <? critical_count)%nat then Ok (CriticalFocus critical_count)
      else if (0 <? high_count)%nat then Ok (HighFocus high_count)
      else Ok NoUrgentTasks
  end.

Definition get_top_suggestions (tasks : list RawTask) (count : Z)
    (strategy : string) : res TopSuggestions :=
  analysis ← analyze_tasks tasks strategy None;
  match br_tasks analysis with
  | [] =>
      Ok {| ts_suggestions := []; ts_message := NoTasksToSuggest;
            ts_summary := br_summary analysis;
            ts_all_tasks_analyzed := None |}
  | _ =>
      let top_tasks := py_take count (br_tasks analysis) in
      (* Generate personalized explanations *)
      let suggestions := imap (λ i task, make_suggestion (S i) task) top_tasks in
      (* Generate overall message *)
      message ← focus_message (br_summary analysis);
      Ok {| ts_suggestions := suggestions; ts_message := message;
            ts_summary := br_summary analysis;
            ts_all_tasks_analyzed := Some (length (br_tasks analysis)) |}
  end.

End Engine.

(** ** Sample inputs *)

(** Environments for closed examples: no text is accepted as a date or as
    an integer (the examples carry dates and integers as such). *)
Definition no_text_dates : string → string → option Z := λ _ _, None.
Definition no_text_ints : string → option Z := λ _, None.

(** The task of the specification's concrete scenario. *)
Definition scenario_task (today : Z) : RawTask :=
  list_to_map
    [ ("title", VStr "X"); ("due_date", VDate today); ("importance", VInt 9);
      ("estimated_hours", VInt 1); ("dependencies", VList []) ].

(** A task with a title and nothing else. *)
Definition plain_task : RawTask := {[ "title" := VStr "X" ]}.

(** A task whose title is the number 5. *)
Definition numeric_title_task : RawTask := {[ "title" := VInt 5 ]}.

Definition task_with_deps (i : Z) (deps : list Z) : RawTask :=
  list_to_map [ ("id", VInt i); ("dependencies", VList (VInt <$> deps)) ].

(** Tasks 1 and 2 depend on each other; task 3 depends on task 1. *)
Definition cycle_then_dependent : list RawTask :=
  [ task_with_deps 1 [2]; task_with_deps 2 [1]; task_with_deps 3 [1] ].

(** A single task that lists itself as a dependency. *)
Definition self_dependent : RawTask := task_with_deps 1 [1].

Definition task_of_importance (name : string) (i : Z) : RawTask :=
  list_to_map [ ("title", VStr name); ("importance", VInt i) ].

(** Two tasks of equal score followed by a task of higher score. *)
Definition tie_batch : list RawTask :=
  [ task_of_importance "first" 5; task_of_importance "second" 5;
    task_of_importance "third" 9 ].

(** A task in need of repair: padded title, importance out of range,
    negative hours, dependencies that are no list. *)
Definition messy_task : RawTask :=
  list_to_map
    [ ("id", VStr "t-1"); ("title", VStr "  write report  ");
      ("importance", VInt 12); ("estimated_hours", VInt (-3));
      ("dependencies", VStr "t-0") ].

(** A task estimated at [10^400] hours, as a JSON integer can be. *)
Definition endless_task : RawTask :=
  list_to_map [ ("title", VStr "big"); ("estimated_hours", VInt (10 ^ 400)) ].

(** A task whose title is a single no-break space (U+00A0). *)
Definition blank_title_task : RawTask :=
  {[ "title" := VStr (String (ascii_of_nat 160) EmptyString) ]}.

(** Two tasks without an id, the second one with dependencies. *)
Definition anonymous_batch : list RawTask :=
  [ plain_task;
    list_to_map [ ("title", VStr "Y"); ("dependencies", VList [VInt 1]) ] ].

(** An overdue task of low importance among three others. *)
Definition mixed_batch : list RawTask :=
  [ task_of_importance "a" 9; task_of_importance "b" 5;
    list_to_map [ ("title", VStr "late"); ("due_date", VDate 738990);
                  ("importance", VInt 1); ("estimated_hours", VInt 40) ];
    task_of_importance "c" 7 ].

(** ** Vocabulary of the statements *)

(** The dependency score after the scorer has looked at the task's own
    dependencies and before it looks at the tasks this one blocks. *)
Definition own_dependency_score (dependencies completed_ids : list PyVal) : Q :=
  match dependencies with
  | [] => 70.0%Q
  | _ =>
      let unmet := filter (λ d, negb (py_mem d completed_ids)) dependencies in
      match unmet with
      | _ :: _ => (70.0 - inject_Z (Z.min 50 (Z.of_nat (length unmet) * 20)))%Q
      | [] => (70.0 + 10)%Q
      end
  end.

(** A value that is not an infinite float. *)
Definition finite_number (v : PyVal) : Prop :=
  match v with
  | VFloat (FInf _) => False
  | _ => True
  end.

(** A scored task as it was before the batch analyzer numbered it. *)
Definition clear_rank (t : ScoredTask) : ScoredTask :=
  {| normalized := normalized t; score := score t;
     priority_level := priority_level t;
     score_breakdown := score_breakdown t; explanations := explanations t;
     strategy_used := strategy_used t; warnings := warnings t;
     rank := None |}.


(** The tasks of a list whose score is [q], in the order of the list. *)
Definition with_score (q : Q) (l : list ScoredTask) : list ScoredTask :=
  List.filter (λ t, Qeq_bool (score t) q) l.

(** [b] is among the dependencies the task map holds for [a]. *)
Definition dep_edge (task_map : list (PyVal * RawTask)) (a b : PyVal) : Prop :=
  ∃ task deps,
    dict_get a task_map = Some task
    ∧ py_iter (default (VList []) (task !! "dependencies")) = Ok deps
    ∧ b ∈ deps.

(** Every entry of the list depends on the next one. *)
Fixpoint dep_path (task_map : list (PyVal * RawTask)) (l : list PyVal) : Prop :=
  match l with
  | a :: l' =>
      match l' with
      | b :: _ => dep_edge task_map a b ∧ dep_path task_map l'
      | [] => True
      end
  | [] => True
  end.

(** A dependency path that ends at the id it starts from. *)
Definition closed_path (task_map : list (PyVal * RawTask)) (c : list PyVal)
  : Prop :=
  dep_path task_map c
  ∧ ∃ x mid y, c = x :: mid ++ [y] ∧ py_eq x y = true.

(** How many tasks of a list have the given priority level. *)
Definition tasks_at_level (level : PriorityLevel) (l : list ScoredTask) : nat :=
  length (List.filter (λ t, bool_decide (priority_level t = level)) l).

(** How many tasks of a list are overdue. *)
Definition overdue_tasks (l : list ScoredTask) : nat :=
  length (List.filter (λ t, is_overdue (ex_urgency (explanations t))) l).

(** A normalized task written back as a raw record, key by key as the
    dictionary [normalized] holds it. *)
Definition raw_of (n : NormalizedTask) : RawTask :=
  let fields : RawTask :=
    list_to_map
      [ ("title", VStr (n_title n));
        ("due_date", from_option VDate VNone (n_due_date n));
        ("importance", VInt (n_importance n));
        ("estimated_hours", VInt (n_estimated_hours n));
        ("dependencies", VList (n_dependencies n)) ] in
  match n_id n with
  | Some v => <["id" := v]> fields
  | None => fields
  end.

(** * Properties *)

(** ** Reasoning about the result monad *)

Lemma bind_Ok {A B : Type} (a : A) (f : A → res B) : (Ok a ≫= f) = f a.
Proof. reflexivity. Qed.

Lemma bind_Raise {A B : Type} (e : PyExc) (f : A → res B) :
  (Raise e ≫= f) = Raise e.
Proof. reflexivity. Qed.

Lemma bind_Ok_inv {A B : Type} (m : res A) (f : A → res B) (b : B) :
  (m ≫= f) = Ok b → ∃ a, m = Ok a ∧ f a = Ok b.
Proof. destruct m as [a|e]; [eauto | discriminate]. Qed.

Lemma not_Ok_Raise {A : Type} (e : PyExc) : ¬ is_Ok (@Raise A e).
Proof. intros [a Ha]. discriminate. Qed.

(** ** Strategy table *)

Lemma strategy_lookup_entries name p :
  STRATEGY_WEIGHTS !! name = Some p → (name, p) ∈ strategy_entries.
Proof. apply elem_of_list_to_map_2. Qed.

Lemma smart_balance_present :
  subscript STRATEGY_WEIGHTS "smart_balance" =
    Ok {| w_urgency := 0.35; w_importance := 0.30; w_effort := 0.20;
          w_dependency := 0.15;
          description := "Balanced consideration of all factors" |}.
Proof. reflexivity. Qed.


(** C9. Every profile of the strategy table has weights that sum to 1.0:
    exactly as decimals, and within the tolerance 1e-9 when the four
    floats are added in binary64 (where the sum of the balanced weights is
    one unit in the last place below 1.0).  The names [balanced] and
    [smart_balance] resolve to one and the same profile. *)
Theorem strategy_weights_sum_to_one :
  map_Forall (λ _ p, (weights_sum p == 1)%Q ∧
                     (Qabs (weights_sum p - 1) <= 1 # 1000000000)%Q ∧
                     close_to_one (weights_sum_binary64 p) = true)
    STRATEGY_WEIGHTS
  ∧ is_Some (STRATEGY_WEIGHTS !! "balanced")
  ∧ STRATEGY_WEIGHTS !! "balanced" = STRATEGY_WEIGHTS !! "smart_balance".
Proof.
  split; [| split; [eexists; reflexivity | reflexivity]].
  intros name p Hp. apply strategy_lookup_entries in Hp.
  assert (Hall : Forall (λ e, (weights_sum e.2 == 1)%Q ∧
                  (Qabs (weights_sum e.2 - 1) <= 1 # 1000000000)%Q ∧
                  close_to_one (weights_sum_binary64 e.2) = true)
                  strategy_entries).
  { unfold strategy_entries.
    repeat constructor; vm_compute; (reflexivity || discriminate). }
  rewrite Forall_forall in Hall. apply (Hall (name, p)), Hp.
Qed.

(** In binary64 the balanced weights do not add up to 1.0 itself. *)
Lemma balanced_sum_binary64_below_one :
  ∃ p, STRATEGY_WEIGHTS !! "balanced" = Some p
       ∧ PrimFloat.ltb (weights_sum_binary64 p) 1 = true.
Proof. eexists. split; reflexivity. Qed.

(** ** Factor scorers *)

Lemma inject_Z_nonneg (z : Z) : 0 ≤ z → (0 <= inject_Z z)%Q.
Proof. intros Hz. change 0%Q with (inject_Z 0). now rewrite <- Zle_Qle. Qed.

(** C5. For every overdue due date the urgency scorer computes
    [min(100, 100 + 0.5 * days_overdue)], and that value is the number
    100.0 itself however many days overdue the task is: the clamp always
    wins. *)
Theorem urgency_overdue_exactly_100 (today due : Z) :
  due - today < 0 →
  calculate_urgency_score today (Some due) =
    (Qmin 100.0 (100.0 + inject_Z (Z.abs (due - today)) * 0.5)%Q,
     Overdue (Z.abs (due - today)))
  ∧ (calculate_urgency_score today (Some due)).1 = 100.0%Q.
Proof.
  intros Hlate. unfold calculate_urgency_score.
  destruct (Z.ltb_spec (due - today) 0) as [_ | Hge]; [| lia].
  split; [reflexivity |]. cbn [fst].
  pose proof (inject_Z_nonneg (Z.abs (due - today)) (Z.abs_nonneg _)) as Hd.
  unfold Qmin, GenericMinMax.gmin.
  destruct (Qcompare_spec 100.0 (100.0 + inject_Z (Z.abs (due - today)) * 0.5))
    as [_ | _ | Hgt]; [reflexivity | reflexivity | lra].
Qed.

Lemma urgency_overdue_exactly_100_witness :
  (calculate_urgency_score 739000 (Some 738990)).1 = 100.0%Q.
Proof.
  apply (urgency_overdue_exactly_100 739000 738990). lia.
Defined.

Lemma urgency_due_today (today : Z) :
  calculate_urgency_score today (Some today) = (95.0%Q, DueToday).
Proof. unfold calculate_urgency_score. rewrite Z.sub_diag. reflexivity. Qed.

Lemma importance_in_range (i : Z) :
  1 ≤ i → i ≤ 10 →
  i = 1 ∨ i = 2 ∨ i = 3 ∨ i = 4 ∨ i = 5 ∨ i = 6 ∨ i = 7 ∨ i = 8 ∨ i = 9 ∨ i = 10.
Proof. lia. Qed.

(** C6, as the code has it. For all ratings [i1 < i2] in [1,10] the
    importance score is monotone; it is strictly increasing as long as
    [i1 <= 8], and the ratings 9 and 10 both score 100, the cap of the
    bonus. *)
Theorem importance_score_monotone (i1 i2 : Z) :
  1 ≤ i1 → i1 < i2 → i2 ≤ 10 →
  ((calculate_importance_score i1).1 <= (calculate_importance_score i2).1)%Q
  ∧ (i1 ≤ 8 →
     ((calculate_importance_score i1).1 < (calculate_importance_score i2).1)%Q)
  ∧ (i1 = 9 →
     (calculate_importance_score i1).1 = 100%Q ∧
     (calculate_importance_score i2).1 = 100%Q).
Proof.
  intros H1 H12 H2.
  destruct (importance_in_range i1) as [->|[->|[->|[->|[->|[->|[->|[->|[->| ->]]]]]]]]];
    try lia;
  destruct (importance_in_range i2) as [->|[->|[->|[->|[->|[->|[->|[->|[->| ->]]]]]]]]];
    try lia;
  (split; [discriminate | split; [intros ?; try lia; reflexivity | intros ?; try lia; split; reflexivity]]).
Qed.

Lemma importance_score_monotone_witness :
  ((calculate_importance_score 8).1 < (calculate_importance_score 9).1)%Q.
Proof.
  apply (importance_score_monotone 8 9); lia.
Defined.

(** C6, counterexample to the claim as stated: above the threshold the
    score is not strictly increasing, ratings 9 and 10 score the same. *)
Lemma importance_not_strict_above_threshold :
  ¬ (∀ i1 i2 : Z, 8 ≤ i1 → i1 < i2 → i2 ≤ 10 →
       ((calculate_importance_score i1).1 < (calculate_importance_score i2).1)%Q).
Proof.
  intros Hstrict. specialize (Hstrict 9 10). 
  assert (H : ((calculate_importance_score 9).1 < (calculate_importance_score 10).1)%Q)
    by (apply Hstrict; lia).
  vm_compute in H. discriminate.
Qed.

(** ** The concrete scenario *)

Lemma scenario_task_normalized today strptime int_of_str :
  validate_task_data strptime int_of_str (scenario_task today) =
    Ok ({| n_title := "X"; n_due_date := Some today; n_importance := 9;
           n_estimated_hours := 1; n_dependencies := []; n_id := None |}, []).
Proof. reflexivity. Qed.

(** C4, as the code has it. The scenario task, scored in a batch of its
    own under [smart_balance] with no completed ids, has urgency 95,
    importance 100, effort 85 (one hour is the top of the 1-2 hour band,
    not "under one hour"), dependency 70, final score 90.75 and level
    CRITICAL. *)
Theorem scenario_scores today strptime int_of_str :
  ∃ r,
    calculate_task_score today strptime int_of_str (scenario_task today)
      (Some [scenario_task today]) "smart_balance" None = Ok r
    ∧ (sb_urgency (score_breakdown r) == 95.0)%Q
    ∧ (sb_importance (score_breakdown r) == 100)%Q
    ∧ (sb_effort (score_breakdown r) == 85.0)%Q
    ∧ (sb_dependency (score_breakdown r) == 70.0)%Q
    ∧ (score r == 90.75)%Q
    ∧ priority_level r = CRITICAL.
Proof.
  unfold calculate_task_score.
  rewrite scenario_task_normalized, bind_Ok.
  cbn [n_due_date n_importance n_estimated_hours n_dependencies n_id].
  rewrite urgency_due_today.
  eexists. split; [reflexivity |].
  repeat split; reflexivity.
Qed.

(** The weighted sum of the scenario in binary64 is the float 90.75
    itself, so rounding error does not change the reported score. *)
Lemma scenario_final_score_binary64 :
  ∃ p, STRATEGY_WEIGHTS !! "smart_balance" = Some p
       ∧ PrimFloat.eqb (weighted_sum_binary64 p 95 100 85 70) 90.75 = true.
Proof. eexists. split; reflexivity. Qed.

(** C4, counterexample to the claim as stated: on a concrete day the
    scenario does not produce effort 100 and final score 93.75. *)
Lemma scenario_not_as_claimed :
  ¬ (∃ r,
       calculate_task_score 739000 no_text_dates no_text_ints
         (scenario_task 739000) (Some [scenario_task 739000])
         "smart_balance" None = Ok r
       ∧ (sb_urgency (score_breakdown r) == 95.0)%Q
       ∧ (sb_importance (score_breakdown r) == 100)%Q
       ∧ (sb_effort (score_breakdown r) == 100.0)%Q
       ∧ (sb_dependency (score_breakdown r) == 70.0)%Q
       ∧ (score r == 93.75)%Q
       ∧ priority_level r = CRITICAL).
Proof.
  intros (r & Hr & _ & _ & Heffort & _ & Hscore & _).
  vm_compute in Hr. injection Hr as <-.
  vm_compute in Heffort. discriminate.
Qed.

(** ** Input normalizer *)

(** A title that is present and is not text makes the normalizer raise:
    [.strip()] is called on it unguarded. *)
Lemma validate_task_data_title_not_text strptime int_of_str
    (task : RawTask) (v : PyVal) :
  task !! "title" = Some v → (∀ s, v ≠ VStr s) →
  validate_task_data strptime int_of_str task = Raise AttributeError.
Proof.
  intros Hv Hns. unfold validate_task_data. rewrite Hv. cbn [default].
  destruct v; try reflexivity. now destruct (Hns s).
Qed.

(** C2, at a failing input: for the raw task whose title is the number 5
    the normalizer raises [AttributeError] instead of returning a pair. *)
Theorem validate_task_data_numeric_title_raises strptime int_of_str :
  validate_task_data strptime int_of_str numeric_title_task
    = Raise AttributeError.
Proof. reflexivity. Qed.

(** An infinite float as importance escapes the handler as well: it
    catches [ValueError] and [TypeError], [int(inf)] raises
    [OverflowError]. *)
Lemma validate_task_data_infinite_importance_raises strptime int_of_str :
  validate_task_data strptime int_of_str
    {[ "importance" := VFloat (FInf false) ]} = Raise OverflowError.
Proof. reflexivity. Qed.

Lemma except_value_type_Ok {A : Type} (body : res A) (handler : A) :
  body ≠ Raise OverflowError → body ≠ Raise AttributeError →
  body ≠ Raise KeyError → body ≠ Raise RecursionError →
  is_Ok (except_value_type body handler).
Proof.
  destruct body as [a | []]; intros; try congruence; eexists; reflexivity.
Qed.

Lemma py_int_raises int_of_str (v : PyVal) (e : PyExc) :
  finite_number v → py_int int_of_str v = Raise e →
  e = ValueError ∨ e = TypeError.
Proof.
  destruct v as [| | |[]| | | |]; cbn; try destruct (int_of_str s);
    intros Hf He; try discriminate; try (now destruct Hf);
    injection He as <-; auto.
Qed.

(** On every raw task whose title is absent or text, and whose importance
    and hours are no infinite floats, the normalizer does return a pair. *)
Lemma validate_task_data_total strptime int_of_str (task : RawTask) :
  (task !! "title" = None ∨ ∃ s, task !! "title" = Some (VStr s)) →
  finite_number (default (VInt 5) (task !! "importance")) →
  finite_number (default (VInt 2) (task !! "estimated_hours")) →
  is_Ok (validate_task_data strptime int_of_str task).
Proof.
  intros Htitle Himp Hhours. unfold validate_task_data.
  assert (Ht : ∃ s, py_strip (default (VStr "") (task !! "title")) = Ok s).
  { destruct Htitle as [-> | [s ->]]; eexists; reflexivity. }
  destruct Ht as [t ->]. rewrite bind_Ok.
  destruct (if String.eqb t "" then _ else _) as [title w_title].
  match goal with
  | |- is_Ok (except_value_type ?b ?h ≫= ?k) =>
      destruct (except_value_type_Ok b h) as [[imp w_imp] ->]
  end.
  1-4: destruct (py_int int_of_str (default (VInt 5) (task !! "importance")))
         as [i | e] eqn:Hi;
       [ rewrite bind_Ok; repeat case_match; discriminate
       | apply py_int_raises in Hi as [-> | ->]; [discriminate.. | assumption] ].
  rewrite bind_Ok.
  match goal with
  | |- is_Ok (except_value_type ?b ?h ≫= ?k) =>
      destruct (except_value_type_Ok b h) as [[hrs w_hrs] ->]
  end.
  1-4: destruct (py_int int_of_str (default (VInt 2) (task !! "estimated_hours")))
         as [i | e] eqn:Hi;
       [ rewrite bind_Ok; repeat case_match; discriminate
       | apply py_int_raises in Hi as [-> | ->]; [discriminate.. | assumption] ].
  rewrite bind_Ok.
  destruct (match default (VList []) (task !! "dependencies") with
            | VList l => _ | _ => _ end) as [deps w_deps].
  eexists. reflexivity.
Qed.

(** What the normalizer returns satisfies the invariant of a normalized
    task: a non-empty title, an importance in [1,10], at least one hour. *)
Lemma validate_task_data_invariant strptime int_of_str (task : RawTask)
    (n : NormalizedTask) (ws : list DataWarning) :
  validate_task_data strptime int_of_str task = Ok (n, ws) →
  n_title n ≠ ""%string ∧ 1 ≤ n_importance n ≤ 10 ∧ 1 ≤ n_estimated_hours n.
Proof.
  intros H. unfold validate_task_data in H.
  apply bind_Ok_inv in H as (t & _ & H).
  destruct (if String.eqb t "" then _ else _) as [title wt] eqn:Ht.
  apply bind_Ok_inv in H as ([imp wi] & Hi & H).
  apply bind_Ok_inv in H as ([hrs wh] & Hh & H).
  destruct (match default (VList []) (task !! "dependencies") with
            | VList l => _ | _ => _ end) as [deps wd].
  injection H as <- <-. cbn. repeat split.
  - destruct (String.eqb t "") eqn:E; injection Ht as <- <-;
      [discriminate | now apply String.eqb_neq in E].
  - destruct (py_int int_of_str _) as [i | e]; cbn in Hi.
    + destruct (Z.ltb_spec i 1); [injection Hi as <- <-; lia |].
      destruct (Z.ltb_spec 10 i); injection Hi as <- <-; lia.
    + destruct e; cbn in Hi; try discriminate; injection Hi as <- <-; lia.
  - destruct (py_int int_of_str _) as [i | e]; cbn in Hi.
    + destruct (Z.ltb_spec i 1); [injection Hi as <- <-; lia |].
      destruct (Z.ltb_spec 10 i); injection Hi as <- <-; lia.
    + destruct e; cbn in Hi; try discriminate; injection Hi as <- <-; lia.
  - destruct (py_int int_of_str (default (VInt 2) _)) as [h | e]; cbn in Hh.
    + destruct (Z.leb_spec h 0); [| injection Hh as <- <-; lia].
      destruct (Z.eqb_spec h 0); injection Hh as <- <-; cbn; lia.
    + destruct e; cbn in Hh; try discriminate; injection Hh as <- <-; lia.
Qed.

(** ** Dependency scorer *)

(** When every raw [dependencies] value of the batch is a list, the
    blocker count is the number of tasks of the whole batch whose list
    contains the id; no task of the batch is left out. *)
Lemma blocked_count_all_lists (task_id : PyVal) (all_tasks : list RawTask) :
  Forall (λ t, ∃ l, default (VList []) (t !! "dependencies") = VList l) all_tasks →
  blocked_count task_id all_tasks =
    Ok (length (List.filter
          (λ t, match default (VList []) (t !! "dependencies") with
                | VList l => py_mem task_id l
                | _ => false
                end) all_tasks)).
Proof.
  induction 1 as [| t ts [l Hl] _ IH]; [reflexivity |].
  cbn [blocked_count List.filter]. rewrite Hl, IH. cbn [py_contains].
  rewrite !bind_Ok. now destruct (py_mem task_id l).
Qed.

(** The part of the claim the code does implement: for a task with an id,
    the bonus [min(30, 15 * blocked_count)] is added to the score whatever
    the task's own dependencies gave, and the sum is clamped to [0,100]. *)
Lemma calculate_dependency_score_bonus (task_id : PyVal)
    (dependencies : list PyVal) (all_tasks : list RawTask) completed_ids
    (n : nat) :
  task_id ≠ VNone → blocked_count task_id all_tasks = Ok n →
  ∃ s exps,
    calculate_dependency_score task_id dependencies all_tasks completed_ids
      = Ok (s, exps)
    ∧ (s == Qmax 0 (Qmin 100
             (own_dependency_score dependencies (default [] completed_ids)
              + inject_Z (Z.min 30 (Z.of_nat n * 15)))))%Q.
Proof.
  intros Hid Hn. unfold calculate_dependency_score.
  set (own := match dependencies with [] => _ | _ => _ end).
  assert (Hown : ∃ q exps,
            own = (q, exps) ∧
            q = own_dependency_score dependencies (default [] completed_ids)).
  { subst own. unfold own_dependency_score.
    destruct dependencies; [eauto |]. destruct (filter _ _); eauto. }
  destruct Hown as (q & exps & -> & <-).
  assert (Hblock :
    match task_id with
    | VNone => Ok (q, [])
    | _ =>
        n ← blocked_count task_id all_tasks;
        if (0 <? n)%nat
        then Ok ((q + inject_Z (Z.min 30 (Z.of_nat n * 15)))%Q, [Blocks n])
        else Ok (q, [])
    end
    = (if (0 <? n)%nat
       then Ok ((q + inject_Z (Z.min 30 (Z.of_nat n * 15)))%Q, [Blocks n])
       else Ok (q, []) : res (Q * list DependencyExp))).
  { destruct task_id; try congruence; now rewrite Hn. }
  rewrite Hblock. destruct n as [| n].
  - cbn [Nat.ltb Nat.leb]. rewrite bind_Ok. do 2 eexists. split; [reflexivity |].
    change (inject_Z (Z.min 30 (Z.of_nat 0 * 15))) with 0%Q.
    now rewrite Qplus_0_r.
  - cbn [Nat.ltb Nat.leb]. rewrite bind_Ok. do 2 eexists. split; reflexivity.
Qed.

(** C7, at a failing input: for a task that lists its own id as a
    dependency, alone in its batch, [blocked_count] is 1 although the batch
    has no other task; the bonus 15 is added and the score is
    70 - 20 + 15 = 65, with the explanation "Blocks 1 other task(s)". *)
Theorem blocked_count_counts_the_task_itself :
  blocked_count (VInt 1) [self_dependent] = Ok 1%nat
  ∧ ∃ s, calculate_dependency_score (VInt 1) [VInt 1] [self_dependent] None
           = Ok (s, [BlockedBy 1; Blocks 1])
         ∧ (s == 65)%Q.
Proof.
  split; [reflexivity |]. eexists. split; [reflexivity |]. reflexivity.
Qed.

(** ** Cycle detector *)

(** The mutual dependency of tasks 1 and 2 alone is reported once. *)
Lemma detect_reports_two_cycle n :
  detect_circular_dependencies (3 + n) [task_with_deps 1 [2]; task_with_deps 2 [1]]
    = Ok [ {| cw_tasks := [VInt 1; VInt 2; VInt 1] |} ].
Proof. reflexivity. Qed.

(** C3, at a failing input: with a further task 3 that depends on task 1
    of the reported cycle, the detector raises [ValueError].  The ids 1 and
    2 stay in [rec_stack] when the cycle is returned, so the visit of task
    3 finds 1 "on the stack" and looks it up in a path that does not
    contain it.  This holds whenever at least three frames are available. *)
Theorem detect_raises_after_reported_cycle n :
  detect_circular_dependencies (3 + n) cycle_then_dependent = Raise ValueError.
Proof. reflexivity. Qed.

(** A cycle through three tasks is reported exactly once. *)
Lemma detect_reports_three_cycle_once n :
  detect_circular_dependencies (4 + n)
    [task_with_deps 1 [2]; task_with_deps 2 [3]; task_with_deps 3 [1]]
    = Ok [ {| cw_tasks := [VInt 1; VInt 2; VInt 3; VInt 1] |} ].
Proof. reflexivity. Qed.

(** A dependency chain longer than the frames that are left exhausts the
    interpreter stack: the traversal is recursive. *)
Lemma detect_chain_exhausts_stack :
  detect_circular_dependencies 2
    [task_with_deps 1 [2]; task_with_deps 2 [3]; task_with_deps 3 []]
    = Raise RecursionError.
Proof. reflexivity. Qed.

(** An id that is a list cannot be a dictionary key. *)
Lemma detect_unhashable_id n :
  detect_circular_dependencies n [ {[ "id" := VList [VInt 1] ]} ]
    = Raise TypeError.
Proof. reflexivity. Qed.

Lemma list_index_absent (x : PyVal) (l : list PyVal) :
  py_mem x l = false → list_index x l = Raise ValueError.
Proof.
  induction l as [| y l IH]; [reflexivity |]. cbn.
  destruct (py_eq y x); [discriminate |]. cbn. intros Hl. now rewrite IH.
Qed.

(** The mechanism of the failure: an id that is on the recursion stack but
    not on the current path makes [has_cycle] raise [ValueError]. *)
Lemma has_cycle_stale_entry (depth : nat) task_map (task_id : PyVal)
    (path : list PyVal) (st : dfs_state) :
  hashable task_id = true →
  py_mem task_id (rec_stack st) = true → py_mem task_id path = false →
  has_cycle (S depth) task_map task_id path st = Raise ValueError.
Proof.
  intros Hh Hstack Hpath. cbn. rewrite Hh, Hstack. cbn.
  now rewrite (list_index_absent _ _ Hpath).
Qed.

(** The state after the first traversal: the cycle's nodes are still on
    the recursion stack. *)
Lemma has_cycle_leaves_rec_stack n :
  ∃ task_map,
    build_task_map cycle_then_dependent [] = Ok task_map ∧
    has_cycle (3 + n) task_map (VInt 1) []
      {| visited := []; rec_stack := [] |}
    = Ok (Some [VInt 1; VInt 2; VInt 1],
          {| visited := [VInt 2; VInt 1]; rec_stack := [VInt 2; VInt 1] |}).
Proof. eexists. split; reflexivity. Qed.

(** ** Batch analyzer and unknown strategies *)

(** With a strategy name that is not in the table, a non-empty batch never
    yields a result: the first summary subscripts the table with it. *)
Lemma analyze_tasks_unknown_strategy_not_Ok today strptime int_of_str limit
    (tasks : list RawTask) (strategy : string) completed_ids :
  tasks ≠ [] → STRATEGY_WEIGHTS !! strategy = None →
  ¬ is_Ok (analyze_tasks today strptime int_of_str limit tasks strategy
             completed_ids).
Proof.
  intros Hne Hs [br Hbr]. unfold analyze_tasks in Hbr.
  destruct tasks as [| t ts]; [congruence |].
  apply bind_Ok_inv in Hbr as (ws & _ & Hbr).
  apply bind_Ok_inv in Hbr as (scored & _ & Hbr).
  apply bind_Ok_inv in Hbr as (p & Hp & _).
  unfold subscript in Hp. rewrite Hs in Hp. discriminate.
Qed.

(** X19. A non-empty batch yields a result exactly when the detector and
    every task's scoring return and the strategy is a name of the table. *)
Lemma analyze_tasks_Ok_iff today strptime int_of_str limit
    (tasks : list RawTask) (strategy : string) completed_ids :
  tasks ≠ [] →
  is_Ok (analyze_tasks today strptime int_of_str limit tasks strategy
           completed_ids)
  ↔ is_Ok (detect_circular_dependencies limit tasks)
    ∧ is_Ok (res_mapM (λ task, calculate_task_score today strptime int_of_str
                                 task (Some tasks) strategy completed_ids) tasks)
    ∧ is_Some (STRATEGY_WEIGHTS !! strategy).
Proof.
  intros Hne. unfold analyze_tasks.
  destruct tasks as [| t ts]; [congruence |]. split.
  - intros [br Hbr].
    apply bind_Ok_inv in Hbr as (ws & Hws & Hbr).
    apply bind_Ok_inv in Hbr as (scored & Hscored & Hbr).
    apply bind_Ok_inv in Hbr as (p & Hp & _).
    repeat split; [now exists ws | now exists scored |].
    unfold subscript in Hp. destruct (STRATEGY_WEIGHTS !! strategy); [eauto | discriminate].
  - intros ([ws ->] & [scored ->] & [p Hp]).
    rewrite !bind_Ok. unfold strategy_get, subscript. rewrite Hp.
    eexists. reflexivity.
Qed.

Lemma analyze_tasks_Ok_iff_witness :
  is_Ok (analyze_tasks 739000 no_text_dates no_text_ints 1000 tie_batch
           "high_impact" None).
Proof.
  apply (analyze_tasks_Ok_iff 739000 no_text_dates no_text_ints 1000 tie_batch
           "high_impact" None); [discriminate |].
  split; [| split]; eexists; vm_compute; reflexivity.
Defined.

(** C1, at a failing input: a batch of one well-formed task analysed under
    a strategy name that is not in the table raises [KeyError] instead
    of returning a batch result. *)
Theorem analyze_tasks_unknown_strategy_raises today strptime int_of_str limit :
  analyze_tasks today strptime int_of_str limit [plain_task] "urgent_first" None
    = Raise KeyError.
Proof. reflexivity. Qed.

(** ** The stable descending sort *)

Section SortDesc.
Context {A : Type} (key : A → Q).

Lemma insert_desc_perm (x : A) (l : list A) : insert_desc key x l ≡ₚ x :: l.
Proof.
  induction l as [| y l IH]; [reflexivity |]. cbn.
  destruct (Qle_bool (key y) (key x)); [reflexivity |].
  rewrite IH. apply perm_swap.
Qed.

Lemma sort_desc_perm (l : list A) : sort_desc key l ≡ₚ l.
Proof.
  induction l as [| x l IH]; [reflexivity |].
  cbn. rewrite insert_desc_perm. now rewrite IH.
Qed.

Lemma insert_desc_sorted (x : A) (l : list A) :
  StronglySorted (desc key) l → StronglySorted (desc key) (insert_desc key x l).
Proof.
  induction 1 as [| y l Hl IH Hy]; cbn.
  - repeat constructor.
  - destruct (Qle_bool (key y) (key x)) eqn:Hyx.
    + apply Qle_bool_iff in Hyx. constructor; [now constructor |].
      constructor; [exact Hyx |].
      eapply Forall_impl; [exact Hy |]. unfold desc. intros z Hz.
      now apply Qle_trans with (key y).
    + constructor; [exact IH |].
      rewrite insert_desc_perm. constructor; [| exact Hy].
      unfold desc. apply Qlt_le_weak, Qnot_le_lt.
      intros Hle. apply Qle_bool_iff in Hle. congruence.
Qed.

Lemma sort_desc_sorted (l : list A) : StronglySorted (desc key) (sort_desc key l).
Proof.
  induction l as [| x l IH]; [constructor |]. now apply insert_desc_sorted.
Qed.

(** Stability: among the elements of one key, insertion puts the new
    element first. *)
Lemma insert_desc_filter (q : Q) (x : A) (l : list A) :
  List.filter (λ t, Qeq_bool (key t) q) (insert_desc key x l) =
  List.filter (λ t, Qeq_bool (key t) q) (x :: l).
Proof.
  induction l as [| y l IH]; [reflexivity |]. cbn [insert_desc].
  destruct (Qle_bool (key y) (key x)) eqn:Hyx; [reflexivity |].
  cbn [List.filter] in *. rewrite IH.
  destruct (Qeq_bool (key x) q) eqn:Hx, (Qeq_bool (key y) q) eqn:Hy;
    try reflexivity.
  apply Qeq_bool_iff in Hx, Hy.
  assert (Hle : Qle_bool (key y) (key x) = true).
  { apply Qle_bool_iff. rewrite Hx, Hy. apply Qle_refl. }
  congruence.
Qed.

Lemma sort_desc_filter (q : Q) (l : list A) :
  List.filter (λ t, Qeq_bool (key t) q) (sort_desc key l) =
  List.filter (λ t, Qeq_bool (key t) q) l.
Proof.
  induction l as [| x l IH]; [reflexivity |].
  cbn [sort_desc foldr]. rewrite insert_desc_filter.
  cbn [List.filter]. fold (sort_desc key l). now rewrite IH.
Qed.

Lemma StronglySorted_lookup (R : relation A) (l : list A) (i j : nat) (x y : A) :
  StronglySorted R l → (i < j)%nat → l !! i = Some x → l !! j = Some y → R x y.
Proof.
  intros Hs. revert i j. induction Hs as [| z l Hl IH Hz]; intros i j Hij Hi Hj.
  - discriminate.
  - destruct j as [| j]; [lia |]. cbn in Hj.
    destruct i as [| i]; cbn in Hi.
    + injection Hi as <-. rewrite Forall_forall in Hz.
      apply Hz. eapply list_elem_of_lookup_2, Hj.
    + apply (IH i j); [lia | assumption..].
Qed.
Lemma filter_key_head (x : A) (l : list A) :
  List.filter (λ t, Qeq_bool (key t) (key x)) (x :: l) =
  x :: List.filter (λ t, Qeq_bool (key t) (key x)) l.
Proof.
  cbn. assert (H : Qeq_bool (key x) (key x) = true)
    by (apply Qeq_bool_iff; reflexivity).
  now rewrite H.
Qed.

(** A stable descending sort is determined by its input: two descending
    lists with the same elements of every key, in the same order, are
    equal.  Hence [sort_desc] is what any stable sort returns. *)
Lemma stable_sort_unique (l1 l2 : list A) :
  StronglySorted (desc key) l1 → StronglySorted (desc key) l2 →
  (∀ q, List.filter (λ t, Qeq_bool (key t) q) l1 =
        List.filter (λ t, Qeq_bool (key t) q) l2) →
  l1 = l2.
Proof.
  revert l2. induction l1 as [| x l1 IH]; intros l2 Hs1 Hs2 Hf.
  - destruct l2 as [| y l2]; [reflexivity |].
    specialize (Hf (key y)). rewrite filter_key_head in Hf. discriminate.
  - destruct l2 as [| y l2].
    { specialize (Hf (key x)). rewrite filter_key_head in Hf. discriminate. }
    apply StronglySorted_inv in Hs1 as [Hs1 Hx].
    apply StronglySorted_inv in Hs2 as [Hs2 Hy].
    rewrite Forall_forall in Hx, Hy.
    assert (Hxy : x = y).
    { pose proof (Hf (key x)) as Hfx. rewrite filter_key_head in Hfx.
      cbn [List.filter] in Hfx.
      destruct (Qeq_bool (key y) (key x)) eqn:Hyx; [congruence |].
      assert (Hx2 : In x l2).
      { eapply proj1, filter_In. rewrite <- Hfx. now left. }
      pose proof (Hf (key y)) as Hfy. rewrite filter_key_head in Hfy.
      cbn [List.filter] in Hfy.
      destruct (Qeq_bool (key x) (key y)) eqn:Hxy.
      { apply Qeq_bool_iff in Hxy. symmetry in Hxy.
        apply Qeq_bool_iff in Hxy. congruence. }
      assert (Hy1 : In y l1).
      { eapply proj1, filter_In. rewrite Hfy. now left. }
      apply list_elem_of_In, Hy in Hx2. apply list_elem_of_In, Hx in Hy1.
      unfold desc in Hx2, Hy1.
      assert (Heq : Qeq_bool (key x) (key y) = true)
        by (apply Qeq_bool_iff, Qle_antisym; assumption).
      congruence. }
    subst y. f_equal. apply IH; [assumption.. |].
    intros q. specialize (Hf q). cbn [List.filter] in Hf.
    destruct (Qeq_bool (key x) q); congruence.
Qed.

Lemma sort_desc_unique (l l' : list A) :
  StronglySorted (desc key) l' →
  (∀ q, List.filter (λ t, Qeq_bool (key t) q) l' =
        List.filter (λ t, Qeq_bool (key t) q) l) →
  l' = sort_desc key l.
Proof.
  intros Hs Hf. apply stable_sort_unique; [exact Hs | apply sort_desc_sorted |].
  intros q. now rewrite sort_desc_filter.
Qed.
End SortDesc.

(** ** Task scorer: the reported strategy name *)



Lemma strategy_get_in_table (strategy : string) :
  ∃ name p, strategy_get strategy "smart_balance" = Ok p
            ∧ (name, p) ∈ strategy_entries.
Proof.
  unfold strategy_get. rewrite smart_balance_present, bind_Ok.
  destruct (STRATEGY_WEIGHTS !! strategy) as [p |] eqn:Hs.
  - exists strategy, p. split; [reflexivity |]. now apply strategy_lookup_entries.
  - eexists "smart_balance", _. split; [reflexivity |].
    apply strategy_lookup_entries. reflexivity.
Qed.

Lemma strategy_get_entries (strategy : string) (p : StrategyProfile) :
  strategy_get strategy "smart_balance" = Ok p →
  ∃ name, (name, p) ∈ strategy_entries.
Proof.
  intros Hp. destruct (strategy_get_in_table strategy) as (name & p' & Hp' & Hin).
  rewrite Hp in Hp'. injection Hp' as <-. now exists name.
Qed.


(** The intermediate values behind a scored task: the normalized record,
    the profile the table lookup yields, and the four factor scores. *)
Lemma calculate_task_score_inv today strptime int_of_str
    (task : RawTask) all_tasks (strategy : string) completed_ids
    (r : ScoredTask) :
  calculate_task_score today strptime int_of_str task all_tasks strategy
    completed_ids = Ok r →
  ∃ ws p f d,
    validate_task_data strptime int_of_str task = Ok (normalized r, ws)
    ∧ strategy_get strategy "smart_balance" = Ok p
    ∧ calculate_effort_score (n_estimated_hours (normalized r))
        = Ok (f, ex_effort (explanations r))
    ∧ calculate_dependency_score (default VNone (n_id (normalized r)))
        (n_dependencies (normalized r)) (default [] all_tasks)
        (Some (default [] completed_ids)) = Ok (d, ex_dependency (explanations r))
    ∧ let u := (calculate_urgency_score today (n_due_date (normalized r))).1 in
      let i := (calculate_importance_score (n_importance (normalized r))).1 in
      score r = round2 (weighted_sum p u i f d)
      ∧ priority_level r = level_of (weighted_sum p u i f d)
      ∧ score_breakdown r =
          {| sb_urgency := round2 u; sb_importance := round2 i;
             sb_effort := round2 f; sb_dependency := round2 d |}
      ∧ ex_urgency (explanations r) =
          (calculate_urgency_score today (n_due_date (normalized r))).2
      ∧ strategy_used r = strategy
      ∧ rank r = None.
Proof.
  unfold calculate_task_score. intros Hr.
  apply bind_Ok_inv in Hr as ([n ws] & Hv & Hr).
  apply bind_Ok_inv in Hr as (p & Hp & Hr).
  destruct (calculate_urgency_score today (n_due_date n)) as [u ue] eqn:Hu.
  destruct (calculate_importance_score (n_importance n)) as [i ie] eqn:Hi.
  apply bind_Ok_inv in Hr as ([f fe] & Hf & Hr).
  apply bind_Ok_inv in Hr as ([d de] & Hd & Hr).
  injection Hr as <-.
  cbn [normalized score priority_level score_breakdown explanations
       ex_urgency ex_effort ex_dependency strategy_used rank].
  exists ws, p, f, d. rewrite Hu, Hi. cbn [fst snd]. auto 12.
Qed.

Lemma calculate_task_score_fields today strptime int_of_str
    (task : RawTask) all_tasks (s : string) completed_ids (r : ScoredTask) :
  calculate_task_score today strptime int_of_str task all_tasks s completed_ids
    = Ok r →
  strategy_used r = s ∧ rank r = None.
Proof.
  intros Hr.
  destruct (calculate_task_score_inv _ _ _ _ _ _ _ _ Hr)
    as (_ & _ & _ & _ & _ & _ & _ & _ & _ & _ & _ & _ & Hs & Hrank).
  split; assumption.
Qed.



(** ** Batch analyzer: order and ranks *)

Lemma res_mapM_Forall {A B : Type} (f : A → res B) (P : B → Prop)
    (l : list A) (ys : list B) :
  (∀ x y, f x = Ok y → P y) → res_mapM f l = Ok ys → Forall P ys.
Proof.
  intros Hf. revert ys. induction l as [| x l IH]; intros ys Hys; cbn in Hys.
  - injection Hys as <-. constructor.
  - apply bind_Ok_inv in Hys as (y & Hy & Hys).
    apply bind_Ok_inv in Hys as (ys' & Hys' & Hys).
    injection Hys as <-. constructor; eauto.
Qed.

Lemma res_mapM_length {A B : Type} (f : A → res B) (l : list A) (ys : list B) :
  res_mapM f l = Ok ys → length ys = length l.
Proof.
  revert ys. induction l as [| x l IH]; intros ys Hys; cbn in Hys.
  - now injection Hys as <-.
  - apply bind_Ok_inv in Hys as (y & Hy & Hys).
    apply bind_Ok_inv in Hys as (ys' & Hys' & Hys).
    injection Hys as <-. cbn. f_equal. now apply IH.
Qed.

Lemma clear_rank_unranked (t : ScoredTask) : rank t = None → clear_rank t = t.
Proof. destruct t; cbn; now intros ->. Qed.

Lemma clear_rank_set_rank (i : nat) (t : ScoredTask) :
  clear_rank (set_rank i t) = clear_rank t.
Proof. reflexivity. Qed.

Lemma clear_rank_add_ranks (l : list ScoredTask) :
  Forall (λ t, rank t = None) l → clear_rank <$> add_ranks l = l.
Proof.
  unfold add_ranks. generalize S as f.
  intros f Hl. revert f. induction Hl as [| t l Ht _ IH]; intros f.
  - reflexivity.
  - rewrite imap_cons, fmap_cons, clear_rank_set_rank, (clear_rank_unranked t Ht).
    f_equal. apply (IH (f ∘ S)).
Qed.

Lemma add_ranks_lookup (l : list ScoredTask) (i : nat) (t : ScoredTask) :
  add_ranks l !! i = Some t → ∃ t0, l !! i = Some t0 ∧ t = set_rank (S i) t0.
Proof.
  unfold add_ranks. rewrite list_lookup_imap.
  destruct (l !! i) as [t0 |]; [| discriminate].
  cbn. intros [= <-]. eauto.
Qed.

(** What a successful analysis of a non-empty batch returns as [tasks]. *)
Lemma analyze_tasks_Ok_tasks today strptime int_of_str limit
    (tasks : list RawTask) (strategy : string) completed_ids (br : BatchResult) :
  tasks ≠ [] →
  analyze_tasks today strptime int_of_str limit tasks strategy completed_ids
    = Ok br →
  ∃ scored,
    res_mapM (λ task, calculate_task_score today strptime int_of_str task
                        (Some tasks) strategy completed_ids) tasks = Ok scored
    ∧ br_tasks br = add_ranks (sort_desc score scored).
Proof.
  intros Hne Hbr. unfold analyze_tasks in Hbr.
  destruct tasks as [| t ts]; [congruence |].
  apply bind_Ok_inv in Hbr as (ws & _ & Hbr).
  apply bind_Ok_inv in Hbr as (scored & Hscored & Hbr).
  apply bind_Ok_inv in Hbr as (p & _ & Hbr).
  apply bind_Ok_inv in Hbr as (profile & _ & Hbr).
  injection Hbr as <-. exists scored. split; [exact Hscored | reflexivity].
Qed.

(** C8. For a non-empty batch, the [tasks] sequence that [analyze_tasks]
    returns consists of the scored tasks of the batch, is in descending
    order of score, keeps tasks of equal score in their input order, and
    gives every task the rank of its 1-based position. *)
Theorem analyze_tasks_sorted_stable_ranked today strptime int_of_str limit
    (tasks : list RawTask) (strategy : string) completed_ids (br : BatchResult) :
  tasks ≠ [] →
  analyze_tasks today strptime int_of_str limit tasks strategy completed_ids
    = Ok br →
  ∃ scored,
    res_mapM (λ task, calculate_task_score today strptime int_of_str task
                        (Some tasks) strategy completed_ids) tasks = Ok scored
    ∧ clear_rank <$> br_tasks br ≡ₚ scored
    ∧ (∀ i j t u, (i < j)%nat →
         br_tasks br !! i = Some t → br_tasks br !! j = Some u →
         (score u <= score t)%Q)
    ∧ (∀ q, with_score q (clear_rank <$> br_tasks br) = with_score q scored)
    ∧ (∀ i t, br_tasks br !! i = Some t → rank t = Some (S i)).
Proof.
  intros Hne Hbr.
  destruct (analyze_tasks_Ok_tasks _ _ _ _ _ _ _ _ Hne Hbr) as (scored & Hsc & ->).
  exists scored. split; [exact Hsc |].
  assert (Hunranked : Forall (λ t, rank t = None) (sort_desc score scored)).
  { rewrite sort_desc_perm.
    eapply res_mapM_Forall; [| exact Hsc].
    intros x y Hy. cbv beta in Hy. eapply calculate_task_score_fields, Hy. }
  rewrite (clear_rank_add_ranks _ Hunranked).
  split; [apply sort_desc_perm |].
  split; [| split].
  - intros i j t u Hij Hi Hj.
    apply add_ranks_lookup in Hi as (t0 & Hi & ->).
    apply add_ranks_lookup in Hj as (u0 & Hj & ->).
    cbn [score set_rank].
    exact (StronglySorted_lookup _ _ _ _ _ _ (sort_desc_sorted score scored)
             Hij Hi Hj).
  - intros q. apply sort_desc_filter.
  - intros i t Hi. apply add_ranks_lookup in Hi as (t0 & _ & ->). reflexivity.
Qed.

Lemma analyze_tasks_sorted_stable_ranked_witness :
  ∃ br, analyze_tasks 739000 no_text_dates no_text_ints 1000 tie_batch
          "balanced" None = Ok br
        ∧ (n_title ∘ normalized <$> br_tasks br) = ["third"; "first"; "second"]
        ∧ (rank <$> br_tasks br) = [Some 1; Some 2; Some 3]%nat
        ∧ ∀ i t, br_tasks br !! i = Some t → rank t = Some (S i).
Proof.
  eexists. split; [vm_compute; reflexivity |].
  split; [reflexivity |]. split; [reflexivity |].
  assert (Hne : tie_batch ≠ []) by discriminate.
  destruct (analyze_tasks_sorted_stable_ranked 739000 no_text_dates
              no_text_ints 1000 tie_batch "balanced" None _ Hne eq_refl)
    as (_ & _ & _ & _ & _ & Hrank).
  exact Hrank.
Defined.

(** * Further properties of the engine *)

(** ** Whitespace stripping *)

Lemma lstrip_head (s : string) :
  lstrip s = EmptyString ∨ ∃ c r, lstrip s = String c r ∧ is_space c = false.
Proof.
  induction s as [| c s IH]; [now left |]. cbn.
  destruct (is_space c) eqn:Hc; [exact IH | right; eauto].
Qed.

Lemma rstrip_head (c : ascii) (s : string) :
  is_space c = false → ∃ r, rstrip (String c s) = String c r.
Proof. intros Hc. cbn. destruct (rstrip s); rewrite ?Hc; eauto. Qed.

Lemma rstrip_idem (s : string) : rstrip (rstrip s) = rstrip s.
Proof.
  induction s as [| c s IH]; [reflexivity |]. cbn.
  destruct (rstrip s) as [| d r] eqn:Hr.
  - destruct (is_space c) eqn:Hc; [reflexivity |]. cbn. now rewrite Hc.
  - change (rstrip (String c (String d r))) with
      (match rstrip (String d r) with
       | EmptyString => if is_space c then EmptyString else String c EmptyString
       | r' => String c r'
       end).
    now rewrite IH.
Qed.

Lemma strip_idem (s : string) : strip (strip s) = strip s.
Proof.
  unfold strip.
  assert (Hl : lstrip (rstrip (lstrip s)) = rstrip (lstrip s)).
  { destruct (lstrip_head s) as [-> | (c & r & -> & Hc)]; [reflexivity |].
    destruct (rstrip_head c r Hc) as [r' ->]. cbn. now rewrite Hc. }
  rewrite Hl. apply rstrip_idem.
Qed.

(** ** Date parser *)

Lemma try_formats_first strptime (s : string) (fmts : list string) (d : Z) :
  try_formats strptime s fmts = Some d ↔
  ∃ failed fmt rest,
    fmts = failed ++ fmt :: rest
    ∧ Forall (λ f, strptime (strip s) f = None) failed
    ∧ strptime (strip s) fmt = Some d.
Proof.
  induction fmts as [| f fmts IH]; cbn.
  - split; [discriminate |]. intros (failed & fmt & rest & Hl & _).
    now destruct failed.
  - destruct (strptime (strip s) f) as [d' |] eqn:Hf.
    + split.
      * intros [= ->]. exists [], f, fmts. repeat split; [constructor | exact Hf].
      * intros ([| f' failed] & fmt & rest & Hl & Hfail & Hfmt);
          injection Hl as -> ->; [congruence |].
        apply Forall_cons in Hfail as [Hf' _]. congruence.
    + rewrite IH. split.
      * intros (failed & fmt & rest & -> & Hfail & Hfmt).
        exists (f :: failed), fmt, rest. repeat split; [now constructor | exact Hfmt].
      * intros ([| f' failed] & fmt & rest & Hl & Hfail & Hfmt);
          injection Hl as -> ->; [congruence |].
        apply Forall_cons in Hfail as [_ Hfail]. eauto 8.
Qed.

(** X1. A text is parsed as the date [d] exactly when [d] is what the
    first format of the fixed list that accepts the stripped text yields;
    so [%m/%d/%Y] wins over [%d/%m/%Y] on a text both accept. *)
Theorem parse_date_first_format_wins strptime (s : string) (d : Z) :
  parse_date strptime (VStr s) = Some d ↔
  ∃ failed fmt rest,
    [ "%Y-%m-%d"; "%m/%d/%Y"; "%d-%m-%Y"; "%Y/%m/%d"; "%d/%m/%Y" ]%string
      = failed ++ fmt :: rest
    ∧ Forall (λ f, strptime (strip s) f = None) failed
    ∧ strptime (strip s) fmt = Some d.
Proof. apply try_formats_first. Qed.

(** ** Input normalizer: when it returns and what it returns *)

(** X2. The normalizer returns a pair exactly for the raw tasks whose title
    is absent or text and whose importance and hours are no infinite
    floats; on every other raw task it raises. *)
Theorem validate_task_data_returns_iff strptime int_of_str (task : RawTask) :
  is_Ok (validate_task_data strptime int_of_str task) ↔
  (task !! "title" = None ∨ ∃ s, task !! "title" = Some (VStr s))
  ∧ finite_number (default (VInt 5) (task !! "importance"))
  ∧ finite_number (default (VInt 2) (task !! "estimated_hours")).
Proof.
  split.
  - intros [[n ws] H]. split; [| split].
    + destruct (task !! "title") as [v |] eqn:Hv; [| now left].
      right. destruct v; try (rewrite (validate_task_data_title_not_text
        strptime int_of_str task _ Hv) in H; [discriminate | congruence]).
      eauto.
    + unfold validate_task_data in H.
      apply bind_Ok_inv in H as (t & _ & H).
      destruct (if String.eqb t "" then _ else _) as [title wt].
      apply bind_Ok_inv in H as ([imp wi] & Hi & _).
      destruct (default (VInt 5) (task !! "importance")) as [| | |[]| | | |];
        cbn; try exact I. discriminate Hi.
    + unfold validate_task_data in H.
      apply bind_Ok_inv in H as (t & _ & H).
      destruct (if String.eqb t "" then _ else _) as [title wt].
      apply bind_Ok_inv in H as ([imp wi] & _ & H).
      apply bind_Ok_inv in H as ([hrs wh] & Hh & _).
      destruct (default (VInt 2) (task !! "estimated_hours")) as [| | |[]| | | |];
        cbn; try exact I. discriminate Hh.
  - intros (Ht & Hi & Hh). now apply validate_task_data_total.
Qed.

Lemma validate_task_data_fields strptime int_of_str (task : RawTask)
    (n : NormalizedTask) (ws : list DataWarning) :
  validate_task_data strptime int_of_str task = Ok (n, ws) →
  strip (n_title n) = n_title n
  ∧ n_due_date n = parse_date strptime (default VNone (task !! "due_date"))
  ∧ n_dependencies n =
      match default (VList []) (task !! "dependencies") with
      | VList l => l
      | _ => []
      end
  ∧ n_id n = task !! "id".
Proof.
  intros H. unfold validate_task_data in H.
  apply bind_Ok_inv in H as (t & Ht & H).
  destruct (if String.eqb t "" then _ else _) as [title wt] eqn:Htitle.
  apply bind_Ok_inv in H as ([imp wi] & _ & H).
  apply bind_Ok_inv in H as ([hrs wh] & _ & H).
  destruct (default (VList []) (task !! "dependencies")) as [| | | | | | | l];
    injection H as <- <-; cbn; repeat split;
    (destruct (String.eqb t ""); injection Htitle as <- <-; [reflexivity |];
     destruct (default (VStr "") (task !! "title")); try discriminate;
     injection Ht as <-; apply strip_idem).
Qed.

(** X3. Whatever the normalizer returns is a valid normalized task: the
    title is non-empty and is its own [strip()] (with the whitespace
    characters 9-13, 28-32, 133 and 160 of [str.strip()]), the importance
    lies in [1,10], the hours are at least 1, and the id is the raw one. *)
Theorem validate_task_data_postcondition strptime int_of_str (task : RawTask)
    (n : NormalizedTask) (ws : list DataWarning) :
  validate_task_data strptime int_of_str task = Ok (n, ws) →
  n_title n ≠ ""%string
  ∧ strip (n_title n) = n_title n
  ∧ 1 ≤ n_importance n ≤ 10
  ∧ 1 ≤ n_estimated_hours n
  ∧ n_id n = task !! "id".
Proof.
  intros H.
  destruct (validate_task_data_invariant _ _ _ _ _ H) as (Ht & Hi & Hh).
  destruct (validate_task_data_fields _ _ _ _ _ H) as (Hs & _ & _ & Hid).
  auto.
Qed.

Lemma validate_task_data_postcondition_witness :
  ∃ n ws,
    validate_task_data no_text_dates no_text_ints messy_task = Ok (n, ws)
    ∧ n_title n = "write report"%string
    ∧ n_importance n = 10 ∧ n_estimated_hours n = 3
    ∧ 1 ≤ n_importance n ≤ 10.
Proof.
  do 2 eexists. split; [vm_compute; reflexivity |].
  repeat (split; [reflexivity |]).
  destruct (validate_task_data_postcondition no_text_dates no_text_ints
              messy_task _ _ eq_refl) as (_ & _ & Hi & _).
  exact Hi.
Defined.

(** A title that consists of a no-break space is blank to [str.strip()]:
    the normalizer replaces it by the default title and warns. *)
Lemma validate_task_data_blank_title strptime int_of_str :
  validate_task_data strptime int_of_str blank_title_task =
    Ok ({| n_title := "Untitled Task"; n_due_date := None; n_importance := 5;
           n_estimated_hours := 2; n_dependencies := []; n_id := None |},
        [MissingTitle]).
Proof. reflexivity. Qed.

Lemma raw_of_lookups (n : NormalizedTask) :
  raw_of n !! "title" = Some (VStr (n_title n))
  ∧ raw_of n !! "due_date" = Some (from_option VDate VNone (n_due_date n))
  ∧ raw_of n !! "importance" = Some (VInt (n_importance n))
  ∧ raw_of n !! "estimated_hours" = Some (VInt (n_estimated_hours n))
  ∧ raw_of n !! "dependencies" = Some (VList (n_dependencies n))
  ∧ raw_of n !! "id" = n_id n.
Proof. unfold raw_of. destruct (n_id n); repeat split; reflexivity. Qed.

(** X4. Normalizing is idempotent: a normalized task written back as a raw
    record is normalized to itself, with no warning. *)
Theorem validate_task_data_idempotent strptime int_of_str (task : RawTask)
    (n : NormalizedTask) (ws : list DataWarning) :
  validate_task_data strptime int_of_str task = Ok (n, ws) →
  validate_task_data strptime int_of_str (raw_of n) = Ok (n, []).
Proof.
  intros H.
  destruct (validate_task_data_invariant _ _ _ _ _ H) as (Ht & Hi & Hh).
  destruct (validate_task_data_fields _ _ _ _ _ H) as (Hs & _ & _ & _).
  destruct (raw_of_lookups n) as (Lt & Ld & Li & Lh & Lp & Lid).
  unfold validate_task_data. rewrite Lt, Ld, Li, Lh, Lp, Lid.
  unfold default. cbn [from_option id py_strip].
  rewrite Hs, bind_Ok.
  apply String.eqb_neq in Ht. rewrite Ht.
  cbn [py_int]. rewrite !bind_Ok.
  destruct (Z.ltb_spec (n_importance n) 1); [lia |].
  destruct (Z.ltb_spec 10 (n_importance n)); [lia |].
  destruct (Z.leb_spec (n_estimated_hours n) 0); [lia |].
  cbn [except_value_type]. rewrite !bind_Ok.
  destruct n as [t d i h p o]; cbn in *.
  destruct d; reflexivity.
Qed.

Lemma validate_task_data_idempotent_witness :
  ∃ n ws,
    validate_task_data no_text_dates no_text_ints messy_task = Ok (n, ws)
    ∧ ws ≠ []
    ∧ validate_task_data no_text_dates no_text_ints (raw_of n) = Ok (n, []).
Proof.
  do 2 eexists. split; [vm_compute; reflexivity |].
  split; [discriminate |].
  apply (validate_task_data_idempotent no_text_dates no_text_ints messy_task _ _
           eq_refl).
Defined.

(** ** Factor scorers: ranges and monotonicity *)

(** Linear goals over [Q] whose atoms are integers: clear denominators and
    decide in [Z]. *)
Ltac qlia := unfold Qle, Qlt, Qeq; cbn; lia.

(** Split on every integer comparison the goal branches on. *)
Ltac split_comparisons :=
  repeat match goal with
  | |- context [Z.ltb ?a ?b] => destruct (Z.ltb_spec a b)
  | |- context [Z.leb ?a ?b] => destruct (Z.leb_spec a b)
  | |- context [Z.eqb ?a ?b] => destruct (Z.eqb_spec a b)
  end.

(** Bounds through the [min] and [max] of a score. *)
Ltac through_minmax :=
  repeat first [apply Q.max_lub | apply Q.min_glb];
  first
    [ qlia
    | apply Q.le_min_l
    | apply Q.le_max_l
    | eapply Qle_trans; [apply Q.le_min_l | qlia]
    | eapply Qle_trans; [| apply Q.le_max_r]; qlia
    | eapply Qle_trans; [| apply Q.le_max_l]; qlia ].

Lemma urgency_score_bounds today (due_date : option Z) :
  (5 <= (calculate_urgency_score today due_date).1 <= 100)%Q.
Proof.
  unfold calculate_urgency_score. destruct due_date as [d |]; [| split; qlia].
  set (n := d - today). clearbody n.
  split_comparisons; cbn [fst]; split; through_minmax.
Qed.

(** X5. Urgency never grows as the due date moves later: for due dates
    [d1 <= d2] the score of [d2] is at most the score of [d1], and every
    urgency score lies between 5 and 100. *)
Theorem urgency_score_antitone today (d1 d2 : Z) :
  d1 ≤ d2 →
  ((calculate_urgency_score today (Some d2)).1
     <= (calculate_urgency_score today (Some d1)).1)%Q
  ∧ (5 <= (calculate_urgency_score today (Some d2)).1)%Q
  ∧ ((calculate_urgency_score today (Some d1)).1 <= 100)%Q.
Proof.
  intros H. split; [| split; apply urgency_score_bounds].
  unfold calculate_urgency_score.
  assert (H12 : d1 - today ≤ d2 - today) by lia.
  set (n1 := d1 - today) in *. set (n2 := d2 - today) in *.
  clearbody n1 n2. clear H d1 d2 today.
  split_comparisons; cbn [fst]; try lia; through_minmax.
Qed.

Lemma urgency_score_antitone_witness :
  Qle (calculate_urgency_score 739000 (Some 739020)).1
      (calculate_urgency_score 739000 (Some 739005)).1.
Proof.
  apply (urgency_score_antitone 739000 739005 739020). lia.
Defined.

Lemma float_int_bound_pos : 0 < float_int_bound.
Proof. reflexivity. Qed.

Lemma float_of_int_Ok (n : Z) (x : Q) :
  float_of_int n = Ok x ↔ Z.abs n < float_int_bound ∧ x = inject_Z n.
Proof.
  unfold float_of_int. destruct (Z.ltb_spec (Z.abs n) float_int_bound).
  - split; [intros [= <-]; auto | intros [_ ->]; reflexivity].
  - split; [discriminate | lia].
Qed.

(** The effort scorer returns for the estimates below [2^1023 - 2^969 + 8]
    hours and raises [OverflowError] from there on. *)
Lemma effort_score_Ok_iff (estimated_hours : Z) :
  is_Ok (calculate_effort_score estimated_hours)
  ↔ (estimated_hours - 8) * 2 < float_int_bound.
Proof.
  pose proof float_int_bound_pos as Hpos.
  unfold calculate_effort_score, float_of_int.
  split_comparisons; try (split; [lia | eexists; reflexivity]).
  split; [intros [r Hr]; discriminate | lia].
Qed.

Lemma effort_score_overflow (estimated_hours : Z) :
  float_int_bound ≤ (estimated_hours - 8) * 2 →
  calculate_effort_score estimated_hours = Raise OverflowError.
Proof.
  intros H. pose proof float_int_bound_pos as Hpos.
  unfold calculate_effort_score, float_of_int.
  split_comparisons; try lia. reflexivity.
Qed.

(** From seventeen hours on the score is the floor 10.0, so the rounding of
    a large estimate in its conversion to a float does not show. *)
Lemma effort_score_long_tasks (estimated_hours : Z) (f : Q) (e : EffortExp) :
  17 ≤ estimated_hours →
  calculate_effort_score estimated_hours = Ok (f, e) → (f == 10)%Q.
Proof.
  intros H. unfold calculate_effort_score, float_of_int.
  split_comparisons; try lia; cbn [mbind res_mbind res_bind];
    intros [= <- <-]; apply Qle_antisym; through_minmax.
Qed.

Lemma effort_score_bounds (estimated_hours : Z) (f : Q) (e : EffortExp) :
  calculate_effort_score estimated_hours = Ok (f, e) → (10 <= f <= 100)%Q.
Proof.
  unfold calculate_effort_score, float_of_int.
  split_comparisons; cbn [mbind res_mbind res_bind]; intros [= <- <-];
    split; through_minmax.
Qed.

(** X6. Effort never grows with the estimate: whenever the scorer returns
    for an estimate [h2] (it raises [OverflowError] from about [9e307]
    hours on), it returns for every estimate [h1 <= h2], the score of [h2]
    is at most the score of [h1], and both lie between 10 and 100. *)
Theorem effort_score_antitone (h1 h2 : Z) (f2 : Q) (e2 : EffortExp) :
  h1 ≤ h2 →
  calculate_effort_score h2 = Ok (f2, e2) →
  ∃ f1 e1,
    calculate_effort_score h1 = Ok (f1, e1)
    ∧ (f2 <= f1)%Q ∧ (10 <= f2)%Q ∧ (f1 <= 100)%Q.
Proof.
  intros H H2.
  assert (Hret : is_Ok (calculate_effort_score h1)).
  { apply effort_score_Ok_iff.
    assert (Hb : is_Ok (calculate_effort_score h2)) by (eexists; exact H2).
    apply effort_score_Ok_iff in Hb. lia. }
  destruct Hret as [[f1 e1] H1]. exists f1, e1.
  split; [exact H1 |].
  split; [| split; [eapply effort_score_bounds, H2 | eapply effort_score_bounds, H1]].
  revert H1 H2. unfold calculate_effort_score, float_of_int.
  split_comparisons; cbn [mbind res_mbind res_bind];
    intros [= <- <-] [= <- <-]; try lia; through_minmax.
Qed.

Lemma effort_score_antitone_witness :
  ∃ f1 e1 f2 e2,
    calculate_effort_score 3 = Ok (f1, e1)
    ∧ calculate_effort_score 12 = Ok (f2, e2)
    ∧ (f2 <= f1)%Q.
Proof.
  assert (H12 : 3 ≤ 12) by lia.
  assert (H2 : calculate_effort_score 12
               = Ok (Qmax 10.0 (28.0 - inject_Z ((12 - 8) * 2))%Q, MajorEffort 12))
    by (vm_compute; reflexivity).
  destruct (effort_score_antitone 3 12 _ _ H12 H2) as (f1 & e1 & H1 & Hle & _).
  exists f1, e1. do 2 eexists.
  split; [exact H1 |]. split; [exact H2 | exact Hle].
Defined.

Lemma importance_score_bounds (importance : Z) :
  1 ≤ importance ≤ 10 →
  (10 <= (calculate_importance_score importance).1 <= 100)%Q.
Proof.
  intros [H1 H2].
  destruct (importance_in_range importance H1 H2)
    as [->|[->|[->|[->|[->|[->|[->|[->|[->| ->]]]]]]]]]; split; discriminate.
Qed.

(** ** Rounding to two decimals *)

Lemma round_half_even_near (x : Q) :
  round_half_even x = Qfloor x ∨ round_half_even x = Qfloor x + 1.
Proof.
  unfold round_half_even.
  destruct (Qcompare _ _); [destruct (Z.even _) | |]; auto.
Qed.

Lemma round_half_even_mono (x y : Q) :
  (x <= y)%Q → round_half_even x ≤ round_half_even y.
Proof.
  intros Hxy. pose proof (Qfloor_resp_le x y Hxy) as Hf.
  destruct (Z.eq_dec (Qfloor x) (Qfloor y)) as [Heq | Hne].
  - unfold round_half_even. rewrite <- Heq.
    destruct (Qcompare_spec (x - inject_Z (Qfloor x)) (1 # 2)) as [Hx | Hx | Hx];
    destruct (Qcompare_spec (y - inject_Z (Qfloor x)) (1 # 2)) as [Hy | Hy | Hy];
      try lia; try lra; destruct (Z.even (Qfloor x)); lia.
  - destruct (round_half_even_near x) as [-> | ->],
             (round_half_even_near y) as [-> | ->]; lia.
Qed.

Lemma round_half_even_integer (z : Z) : round_half_even (inject_Z z) = z.
Proof.
  unfold round_half_even. rewrite Qfloor_Z.
  destruct (Qcompare_spec (inject_Z z - inject_Z z) (1 # 2)) as [H | H | H];
    [lra | reflexivity | lra].
Qed.

Lemma scale_integer (k : Z) : (inject_Z k * 100 == inject_Z (k * 100))%Q.
Proof. rewrite inject_Z_mult. reflexivity. Qed.

Lemma round2_ge (k : Z) (x : Q) :
  (inject_Z k <= x)%Q → (inject_Z k <= round2 x)%Q.
Proof.
  intros H. unfold round2.
  assert (Hs : (inject_Z (k * 100) <= x * 100)%Q)
    by (rewrite <- scale_integer; lra).
  apply round_half_even_mono in Hs. rewrite round_half_even_integer in Hs.
  unfold Qle. cbn. lia.
Qed.

Lemma round2_le (k : Z) (x : Q) :
  (x <= inject_Z k)%Q → (round2 x <= inject_Z k)%Q.
Proof.
  intros H. unfold round2.
  assert (Hs : (x * 100 <= inject_Z (k * 100))%Q)
    by (rewrite <- scale_integer; lra).
  apply round_half_even_mono in Hs. rewrite round_half_even_integer in Hs.
  unfold Qle. cbn. lia.
Qed.

Lemma round2_mono (x y : Q) : (x <= y)%Q → (round2 x <= round2 y)%Q.
Proof.
  intros H. unfold round2.
  assert (Hs : (x * 100 <= y * 100)%Q) by lra.
  apply round_half_even_mono in Hs. unfold Qle. cbn. lia.
Qed.

(** ** Dependency scorer: range *)

(** Whenever the dependency scorer returns, its score lies between 20 and
    100: the lower clamp at 0 is never reached (the penalty is at most 50),
    the upper clamp at 100 cuts the sum 70 + 10 + 30. *)
Lemma dependency_score_bounds (task_id : PyVal) (dependencies : list PyVal)
    (all_tasks : list RawTask) completed_ids (s : Q) (e : list DependencyExp) :
  calculate_dependency_score task_id dependencies all_tasks completed_ids
    = Ok (s, e) →
  (20 <= s <= 100)%Q.
Proof.
  unfold calculate_dependency_score. intros H.
  set (own := match dependencies with [] => _ | _ => _ end) in H.
  assert (Hown : (20 <= own.1 <= 80)%Q).
  { subst own. destruct dependencies as [| d ds]; [split; qlia |].
    destruct (filter _ _) as [| u us]; cbn [fst]; [split; qlia |].
    set (k := Z.of_nat (length (u :: us))).
    assert (1 ≤ k) by (subst k; cbn [length]; lia).
    clearbody k. split; qlia. }
  destruct own as [q eq]. cbn [fst] in Hown.
  apply bind_Ok_inv in H as ([q' e'] & Hb & H). injection H as <- <-.
  assert (Hq' : (q <= q' <= q + 30)%Q).
  { destruct task_id;
      try (injection Hb as <- <-; split; lra);
      apply bind_Ok_inv in Hb as (n & _ & Hb);
      (destruct (0 <? n)%nat; injection Hb as <- <-; [| split; lra];
       set (bonus := Z.min 30 (Z.of_nat n * 15));
       assert (Hbonus : (0 <= inject_Z bonus <= 30)%Q)
         by (subst bonus; split; qlia);
       clearbody bonus; split; lra). }
  split.
  - eapply Qle_trans; [| apply Q.le_max_r]. apply Q.min_glb; lra.
  - apply Q.max_lub; [lra | apply Q.le_min_l].
Qed.

(** ** Task scorer: when it returns, and the range of what it returns *)

Lemma blocked_count_Ok_iff (task_id : PyVal) (all_tasks : list RawTask) :
  is_Ok (blocked_count task_id all_tasks) ↔
  Forall (λ t, is_Ok (py_contains task_id
                        (default (VList []) (t !! "dependencies")))) all_tasks.
Proof.
  induction all_tasks as [| t ts IH]; cbn [blocked_count].
  - split; [constructor | eexists; reflexivity].
  - rewrite Forall_cons, <- IH. split.
    + intros [n Hn]. apply bind_Ok_inv in Hn as (hit & Hhit & Hn).
      apply bind_Ok_inv in Hn as (m & Hm & _). split; eexists; eassumption.
    + intros [[hit ->] [m ->]]. eexists. reflexivity.
Qed.

Lemma dependency_score_Ok_iff (task_id : PyVal) (dependencies : list PyVal)
    (all_tasks : list RawTask) completed_ids :
  is_Ok (calculate_dependency_score task_id dependencies all_tasks completed_ids)
  ↔ task_id = VNone ∨ is_Ok (blocked_count task_id all_tasks).
Proof.
  unfold calculate_dependency_score.
  destruct (match dependencies with [] => _ | _ => _ end) as [q e].
  split.
  - intros [[s e'] H]. apply bind_Ok_inv in H as ([q' e''] & Hb & _).
    destruct task_id; [now left | right..];
      apply bind_Ok_inv in Hb as (n & Hn & _); eexists; exact Hn.
  - intros [-> | [n Hn]]; [eexists; reflexivity |].
    destruct task_id; try (eexists; reflexivity);
      rewrite Hn, bind_Ok; destruct (0 <? n)%nat; eexists; reflexivity.
Qed.

(** X8. Whether the task scorer returns depends on the shape of the input
    and the size of one number: it returns exactly when the normalizer
    accepts the raw task, the normalized estimate is small enough for
    [(hours - 8) * 2] to be converted to a float (otherwise the effort
    scorer raises [OverflowError]), and, if the task has an id, every task
    of the batch has a [dependencies] value on which [in] is defined for
    that id.  The strategy, the date and the completed ids never make it
    raise. *)
Theorem calculate_task_score_returns_iff today strptime int_of_str
    (task : RawTask) all_tasks (strategy : string) completed_ids :
  is_Ok (calculate_task_score today strptime int_of_str task all_tasks strategy
           completed_ids)
  ↔ (∃ n ws, validate_task_data strptime int_of_str task = Ok (n, ws)
             ∧ (n_estimated_hours n - 8) * 2 < float_int_bound)
    ∧ (default VNone (task !! "id") = VNone
       ∨ Forall (λ t, is_Ok (py_contains (default VNone (task !! "id"))
                               (default (VList []) (t !! "dependencies"))))
           (default [] all_tasks)).
Proof.
  rewrite <- blocked_count_Ok_iff.
  rewrite <- (dependency_score_Ok_iff _
                (match validate_task_data strptime int_of_str task with
                 | Ok (n, _) => n_dependencies n
                 | Raise _ => []
                 end) _ (Some (default [] completed_ids))).
  unfold calculate_task_score.
  destruct (validate_task_data strptime int_of_str task) as [[n ws] | e] eqn:Hv.
  - destruct (validate_task_data_fields _ _ _ _ _ Hv) as (_ & _ & _ & Hid).
    rewrite bind_Ok, <- Hid.
    destruct (strategy_get_in_table strategy) as (name & p & -> & _).
    rewrite bind_Ok.
    destruct (calculate_urgency_score today (n_due_date n)) as [u ue].
    destruct (calculate_importance_score (n_importance n)) as [i ie].
    pose proof (effort_score_Ok_iff (n_estimated_hours n)) as Hf.
    destruct (calculate_effort_score (n_estimated_hours n)) as [[f fe] | e].
    + assert (Hh : (n_estimated_hours n - 8) * 2 < float_int_bound)
        by (apply Hf; eexists; reflexivity).
      rewrite bind_Ok.
      destruct (calculate_dependency_score _ _ _ _) as [[d de] | e].
      * rewrite bind_Ok. split; [intros _ | intros _]; [split |];
          eexists; eauto.
      * rewrite bind_Raise. split; [intros [r Hr]; discriminate |].
        intros [_ [r Hr]]. discriminate.
    + rewrite bind_Raise. split; [intros [r Hr]; discriminate |].
      intros [(n' & ws' & [= <- <-] & Hh) _].
      apply Hf in Hh as [r Hr]. discriminate.
  - rewrite bind_Raise. split; [intros [r Hr]; discriminate |].
    intros [(n' & ws' & Hn & _) _]. discriminate.
Qed.

(** An estimate of [10^400] hours passes the normalizer and makes the
    scorer raise in the effort score. *)
Lemma calculate_task_score_endless_task today strptime int_of_str :
  is_Ok (validate_task_data strptime int_of_str endless_task)
  ∧ calculate_task_score today strptime int_of_str endless_task
      (Some [endless_task]) "smart_balance" None = Raise OverflowError.
Proof. split; [eexists |]; vm_compute; reflexivity. Qed.

Lemma weights_of_entries (name : string) (p : StrategyProfile) :
  (name, p) ∈ strategy_entries →
  (0 <= w_urgency p)%Q ∧ (0 <= w_importance p)%Q ∧ (0 <= w_effort p)%Q
  ∧ (0 <= w_dependency p)%Q ∧ (weights_sum p == 1)%Q.
Proof.
  intros Hin.
  assert (Hall : Forall (λ e, (0 <= w_urgency e.2)%Q ∧ (0 <= w_importance e.2)%Q
                   ∧ (0 <= w_effort e.2)%Q ∧ (0 <= w_dependency e.2)%Q
                   ∧ (weights_sum e.2 == 1)%Q) strategy_entries).
  { unfold strategy_entries.
    repeat constructor; vm_compute; (reflexivity || discriminate). }
  rewrite Forall_forall in Hall. apply (Hall (name, p) Hin).
Qed.

(** A weighted sum of values of one interval, under weights that are
    non-negative and sum to 1, lies in the interval. *)
Lemma weighted_sum_between (p : StrategyProfile) (lo hi u i f d : Q) :
  (0 <= w_urgency p)%Q → (0 <= w_importance p)%Q → (0 <= w_effort p)%Q →
  (0 <= w_dependency p)%Q → (weights_sum p == 1)%Q →
  (lo <= u <= hi)%Q → (lo <= i <= hi)%Q → (lo <= f <= hi)%Q →
  (lo <= d <= hi)%Q →
  (lo <= weighted_sum p u i f d <= hi)%Q.
Proof.
  unfold weights_sum, weighted_sum.
  destruct p as [wu wi wf wd desc]. cbn.
  intros Hu Hi Hf Hd Hsum [Hu1 Hu2] [Hi1 Hi2] [Hf1 Hf2] [Hd1 Hd2].
  assert (Hlo : (lo == lo * wu + lo * wi + lo * wf + lo * wd)%Q)
    by (rewrite <- !Qmult_plus_distr_r, Hsum; ring).
  assert (Hhi : (hi == hi * wu + hi * wi + hi * wf + hi * wd)%Q)
    by (rewrite <- !Qmult_plus_distr_r, Hsum; ring).
  pose proof (Qmult_le_compat_r _ _ _ Hu1 Hu). pose proof (Qmult_le_compat_r _ _ _ Hu2 Hu).
  pose proof (Qmult_le_compat_r _ _ _ Hi1 Hi). pose proof (Qmult_le_compat_r _ _ _ Hi2 Hi).
  pose proof (Qmult_le_compat_r _ _ _ Hf1 Hf). pose proof (Qmult_le_compat_r _ _ _ Hf2 Hf).
  pose proof (Qmult_le_compat_r _ _ _ Hd1 Hd). pose proof (Qmult_le_compat_r _ _ _ Hd2 Hd).
  split; [rewrite Hlo | rewrite Hhi]; lra.
Qed.

(** X9. Every scored task has a final score between 5 and 100, and factor
    scores within their ranges: urgency in [5,100], importance and effort
    in [10,100], dependency in [20,100]. *)
Theorem calculate_task_score_bounds today strptime int_of_str
    (task : RawTask) all_tasks (strategy : string) completed_ids
    (r : ScoredTask) :
  calculate_task_score today strptime int_of_str task all_tasks strategy
    completed_ids = Ok r →
  (5 <= score r <= 100)%Q
  ∧ (5 <= sb_urgency (score_breakdown r) <= 100)%Q
  ∧ (10 <= sb_importance (score_breakdown r) <= 100)%Q
  ∧ (10 <= sb_effort (score_breakdown r) <= 100)%Q
  ∧ (20 <= sb_dependency (score_breakdown r) <= 100)%Q.
Proof.
  intros Hr.
  destruct (calculate_task_score_inv _ _ _ _ _ _ _ _ Hr)
    as (ws & p & f & d & Hv & Hp & Hf & Hd & Hs & _ & Hb & _).
  destruct (strategy_get_entries _ _ Hp) as [name Hin].
  destruct (validate_task_data_invariant _ _ _ _ _ Hv) as (_ & Hi & _).
  pose proof (urgency_score_bounds today (n_due_date (normalized r))) as Bu.
  pose proof (importance_score_bounds _ Hi) as Bi.
  pose proof (effort_score_bounds _ _ _ Hf) as Bf.
  pose proof (dependency_score_bounds _ _ _ _ _ _ Hd) as Bd.
  destruct (weights_of_entries _ _ Hin) as (W1 & W2 & W3 & W4 & W5).
  rewrite Hs, Hb. cbn [sb_urgency sb_importance sb_effort sb_dependency].
  split.
  - assert (Hw : (5 <= weighted_sum p
                    (calculate_urgency_score today (n_due_date (normalized r))).1
                    (calculate_importance_score (n_importance (normalized r))).1
                    f d <= 100)%Q).
    { apply weighted_sum_between; try assumption; split; lra. }
    split; [apply (round2_ge 5) | apply (round2_le 100)]; apply Hw.
  - repeat split;
      first [ apply (round2_ge 5) | apply (round2_ge 10) | apply (round2_ge 20)
            | apply (round2_le 100) ];
      first [apply Bu | apply Bi | apply Bf | apply Bd].
Qed.

Lemma calculate_task_score_bounds_witness :
  ∃ r, calculate_task_score 739000 no_text_dates no_text_ints messy_task
         (Some [messy_task]) "fastest_wins" None = Ok r
       ∧ (5 <= score r <= 100)%Q.
Proof.
  eexists. split; [vm_compute; reflexivity |].
  eapply (calculate_task_score_bounds 739000 no_text_dates no_text_ints
            messy_task (Some [messy_task]) "fastest_wins" None).
  vm_compute; reflexivity.
Defined.

(** X10. The priority level and the reported (rounded) score agree on the
    bands: CRITICAL has a score of at least 75, HIGH one in [60,75], MEDIUM
    one in [40,60], LOW one in [25,40] and MINIMAL at most 25. *)
Theorem priority_level_bands today strptime int_of_str
    (task : RawTask) all_tasks (strategy : string) completed_ids
    (r : ScoredTask) :
  calculate_task_score today strptime int_of_str task all_tasks strategy
    completed_ids = Ok r →
  match priority_level r with
  | CRITICAL => (75 <= score r)%Q
  | HIGH => (60 <= score r <= 75)%Q
  | MEDIUM => (40 <= score r <= 60)%Q
  | LOW => (25 <= score r <= 40)%Q
  | MINIMAL => (score r <= 25)%Q
  end.
Proof.
  intros Hr.
  destruct (calculate_task_score_inv _ _ _ _ _ _ _ _ Hr)
    as (_ & p & f & d & _ & _ & _ & _ & -> & -> & _).
  set (final := weighted_sum p _ _ f d). clearbody final.
  unfold level_of.
  destruct (Qle_bool 75 final) eqn:H75.
  { apply Qle_bool_iff in H75. now apply (round2_ge 75). }
  destruct (Qle_bool 60 final) eqn:H60.
  { apply Qle_bool_iff in H60. split; [now apply (round2_ge 60) |].
    apply (round2_le 75), Qlt_le_weak, Qnot_le_lt. intros H.
    apply Qle_bool_iff in H. unfold inject_Z in H. congruence. }
  destruct (Qle_bool 40 final) eqn:H40.
  { apply Qle_bool_iff in H40. split; [now apply (round2_ge 40) |].
    apply (round2_le 60), Qlt_le_weak, Qnot_le_lt. intros H.
    apply Qle_bool_iff in H. unfold inject_Z in H. congruence. }
  destruct (Qle_bool 25 final) eqn:H25.
  { apply Qle_bool_iff in H25. split; [now apply (round2_ge 25) |].
    apply (round2_le 40), Qlt_le_weak, Qnot_le_lt. intros H.
    apply Qle_bool_iff in H. unfold inject_Z in H. congruence. }
  apply (round2_le 25), Qlt_le_weak, Qnot_le_lt. intros H.
  apply Qle_bool_iff in H. unfold inject_Z in H. congruence.
Qed.

Lemma priority_level_bands_witness :
  ∃ r, calculate_task_score 739000 no_text_dates no_text_ints messy_task
         (Some [messy_task]) "fastest_wins" None = Ok r
       ∧ priority_level r = HIGH ∧ (60 <= score r <= 75)%Q.
Proof.
  eexists. split; [vm_compute; reflexivity |]. split; [reflexivity |].
  exact (priority_level_bands 739000 no_text_dates no_text_ints messy_task
           (Some [messy_task]) "fastest_wins" None _ eq_refl).
Defined.

(** The bands above are not strict, and cannot be: the level is taken from
    the unrounded float and the score is its rounding.  For the factor
    scores 47, 83, 22 and 95 (due in six days, importance 8, eleven hours,
    dependencies complete and one task blocked) the balanced sum is 60 as
    a decimal but falls just below 60 in binary64, so the interpreter
    reports the level MEDIUM next to the score 60.0. *)
Lemma level_below_reported_score_binary64 :
  ∃ p, STRATEGY_WEIGHTS !! "balanced" = Some p
       ∧ (weighted_sum p 47 83 22 95 == 60)%Q
       ∧ PrimFloat.ltb (weighted_sum_binary64 p 47 83 22 95) 60 = true.
Proof. eexists. split; [reflexivity |]. split; reflexivity. Qed.

(** ** Batch analyzer: when it returns, and its summary *)

Lemma level_count_count_level (l l' : PriorityLevel)
    (d : list (PriorityLevel * nat)) :
  level_count l (count_level l' d)
  = (level_count l d + if decide (l' = l) then 1 else 0)%nat.
Proof.
  unfold level_count.
  induction d as [| [k n] d IH]; cbn [count_level List.find fst snd].
  - destruct (decide (l' = l)) as [-> | Hne].
    + rewrite bool_decide_eq_true_2 by reflexivity. reflexivity.
    + rewrite bool_decide_eq_false_2 by assumption. reflexivity.
  - destruct (decide (k = l')) as [-> | Hkl']; cbn [List.find fst snd].
    + destruct (decide (l' = l)) as [-> | Hne].
      * rewrite bool_decide_eq_true_2 by reflexivity. cbn. lia.
      * rewrite !bool_decide_eq_false_2 by assumption. cbn. lia.
    + destruct (decide (k = l)) as [-> | Hkl].
      * rewrite bool_decide_eq_true_2 by reflexivity.
        destruct (decide (l' = l)); [congruence |]. cbn. lia.
      * rewrite bool_decide_eq_false_2 by assumption. exact IH.
Qed.

Lemma level_count_fold (l : PriorityLevel) (ts : list ScoredTask)
    (d : list (PriorityLevel * nat)) :
  level_count l (foldl (λ d t, count_level (priority_level t) d) d ts)
  = (level_count l d + tasks_at_level l ts)%nat.
Proof.
  unfold tasks_at_level. revert d.
  induction ts as [| t ts IH]; intros d; cbn [foldl List.filter length].
  - lia.
  - rewrite IH, level_count_count_level.
    destruct (decide (priority_level t = l)) as [Heq | Hne].
    + rewrite bool_decide_eq_true_2 by assumption. cbn [length]. lia.
    + rewrite bool_decide_eq_false_2 by assumption. lia.
Qed.

(** The summary of a successful analysis of a non-empty batch. *)
Lemma analyze_tasks_Ok_summary today strptime int_of_str limit
    (tasks : list RawTask) (strategy : string) completed_ids (br : BatchResult) :
  tasks ≠ [] →
  analyze_tasks today strptime int_of_str limit tasks strategy completed_ids
    = Ok br →
  ∃ by_priority p,
    br_summary br =
      FullSummary (length tasks) by_priority
        (tasks_at_level CRITICAL (br_tasks br))
        (tasks_at_level HIGH (br_tasks br))
        (overdue_tasks (br_tasks br))
        (br_warnings br) strategy (description p)
    ∧ STRATEGY_WEIGHTS !! strategy = Some p
    ∧ length (br_tasks br) = length tasks
    ∧ ∀ level, level_count level by_priority = tasks_at_level level (br_tasks br).
Proof.
  intros Hne Hbr. unfold analyze_tasks in Hbr.
  destruct tasks as [| t ts]; [congruence |].
  apply bind_Ok_inv in Hbr as (ws & _ & Hbr).
  apply bind_Ok_inv in Hbr as (scored & Hscored & Hbr).
  apply bind_Ok_inv in Hbr as (p & Hp & Hbr).
  apply bind_Ok_inv in Hbr as (profile & Hprofile & Hbr).
  injection Hbr as <-. cbn [br_summary br_tasks br_warnings].
  unfold subscript in Hp.
  destruct (STRATEGY_WEIGHTS !! strategy) as [p' |] eqn:Hs; [| discriminate].
  injection Hp as ->.
  assert (Hprof : profile = p).
  { unfold strategy_get, subscript in Hprofile. rewrite Hs in Hprofile.
    destruct (STRATEGY_WEIGHTS !! "balanced"); [| discriminate].
    cbn in Hprofile. now injection Hprofile as <-. }
  subst profile.
  assert (Hlen : length (add_ranks (sort_desc score scored)) = length (t :: ts)).
  { unfold add_ranks. rewrite length_imap, (Permutation_length (sort_desc_perm score scored)).
    exact (res_mapM_length _ _ _ Hscored). }
  eexists _, p. split; [| split; [reflexivity | split; [exact Hlen |]]].
  - rewrite Hlen, !level_count_fold. reflexivity.
  - intros level. rewrite level_count_fold. reflexivity.
Qed.


Lemma tasks_at_level_partition (l : list ScoredTask) :
  (tasks_at_level CRITICAL l + tasks_at_level HIGH l + tasks_at_level MEDIUM l
   + tasks_at_level LOW l + tasks_at_level MINIMAL l = length l)%nat.
Proof.
  unfold tasks_at_level. induction l as [| t l IH]; [reflexivity |].
  cbn [List.filter].
  destruct (priority_level t);
    repeat case_bool_decide; try congruence; cbn [length]; lia.
Qed.

(** X11. The summary of a non-empty analysis agrees with the task list
    it comes with: [total] is the number of input tasks, the critical,
    high and overdue counts and every entry of [by_priority] are the numbers
    of such tasks in the list, the five level counts add up to [total], the
    warnings are those of the result, and the description is the one of the
    strategy's profile. *)
Theorem analyze_tasks_summary_counts today strptime int_of_str limit
    (tasks : list RawTask) (strategy : string) completed_ids (br : BatchResult) :
  tasks ≠ [] →
  analyze_tasks today strptime int_of_str limit tasks strategy completed_ids
    = Ok br →
  ∃ by_priority p,
    br_summary br =
      FullSummary (length tasks) by_priority
        (tasks_at_level CRITICAL (br_tasks br))
        (tasks_at_level HIGH (br_tasks br))
        (overdue_tasks (br_tasks br))
        (br_warnings br) strategy (description p)
    ∧ STRATEGY_WEIGHTS !! strategy = Some p
    ∧ length (br_tasks br) = length tasks
    ∧ (∀ level, level_count level by_priority
                = tasks_at_level level (br_tasks br))
    ∧ (level_count CRITICAL by_priority + level_count HIGH by_priority
       + level_count MEDIUM by_priority + level_count LOW by_priority
       + level_count MINIMAL by_priority = length tasks)%nat.
Proof.
  intros Hne Hbr.
  destruct (analyze_tasks_Ok_summary _ _ _ _ _ _ _ _ Hne Hbr)
    as (bp & p & Hsum & Hp & Hlen & Hcount).
  exists bp, p. repeat split; try assumption.
  rewrite !Hcount, <- Hlen. apply tasks_at_level_partition.
Qed.

Lemma analyze_tasks_summary_counts_witness :
  ∃ br, analyze_tasks 739000 no_text_dates no_text_ints 1000 tie_batch
          "balanced" None = Ok br
        ∧ length (br_tasks br) = 3%nat
        ∧ tasks_at_level MEDIUM (br_tasks br) = 2%nat.
Proof.
  eexists. split; [vm_compute; reflexivity |].
  assert (Hne : tie_batch ≠ []) by discriminate.
  destruct (analyze_tasks_summary_counts 739000 no_text_dates no_text_ints
              1000 tie_batch "balanced" None _ Hne eq_refl)
    as (bp & p & _ & _ & Hlen & _ & _).
  split; [exact Hlen | reflexivity].
Defined.

(** ** Cycle detector: what it reports *)

Lemma list_index_Ok (x : PyVal) (l : list PyVal) (i : nat) :
  list_index x l = Ok i → ∃ y, l !! i = Some y ∧ py_eq y x = true.
Proof.
  revert i. induction l as [| y l IH]; intros i; cbn; [discriminate |].
  destruct (py_eq y x) eqn:Hy.
  - intros [= <-]. eauto.
  - intros H. apply bind_Ok_inv in H as (j & Hj & [= <-]).
    apply IH in Hj as (z & Hz & Hzx). eauto.
Qed.

Lemma dep_path_tail task_map (a : PyVal) (l : list PyVal) :
  dep_path task_map (a :: l) → dep_path task_map l.
Proof. destruct l as [| b l]; [constructor | now intros [_ H]]. Qed.

Lemma dep_path_drop task_map (i : nat) (l : list PyVal) :
  dep_path task_map l → dep_path task_map (drop i l).
Proof.
  revert l. induction i as [| i IH]; intros [| a l] H; try exact H.
  apply IH. eapply dep_path_tail, H.
Qed.

Lemma dep_path_snoc task_map (l : list PyVal) (a b : PyVal) :
  dep_path task_map (l ++ [a]) → dep_edge task_map a b →
  dep_path task_map ((l ++ [a]) ++ [b]).
Proof.
  intros Hl Hab. induction l as [| x l IH]; [cbn; auto |].
  cbn [app] in *. destruct (l ++ [a]) as [| y l'] eqn:Hla.
  - now destruct l.
  - cbn [app]. destruct Hl as [Hxy Hl]. split; [exact Hxy |]. now apply IH.
Qed.

Lemma has_cycle_sound (depth : nat) task_map (task_id : PyVal)
    (path : list PyVal) (st st' : dfs_state) (c : list PyVal) :
  dep_path task_map (path ++ [task_id]) →
  has_cycle depth task_map task_id path st = Ok (Some c, st') →
  closed_path task_map c.
Proof.
  revert task_id path st st' c.
  induction depth as [| depth IH]; intros task_id path st st' c Hpath H;
    [discriminate |].
  cbn [has_cycle] in H.
  destruct (negb (hashable task_id)); [discriminate |].
  destruct (py_mem task_id (rec_stack st)).
  { apply bind_Ok_inv in H as (i & Hi & [= <- <-]).
    apply list_index_Ok in Hi as (y & Hy & Hyx).
    assert (Hdrop : drop i path ++ [task_id] = drop i (path ++ [task_id])).
    { symmetry. apply drop_app_le. apply lookup_lt_Some in Hy. lia. }
    split; [rewrite Hdrop; now apply dep_path_drop |].
    rewrite (drop_S _ _ _ Hy). exists y, (drop (S i) path), task_id. auto. }
  destruct (py_mem task_id (visited st)); [discriminate |].
  apply bind_Ok_inv in H as ([result st1] & Hloop & H).
  destruct result as [cycle |];
    [injection H as <- <- | apply bind_Ok_inv in H as (rs & _ & [=])].
  destruct (dict_get task_id task_map) as [task |] eqn:Htask; [| discriminate].
  destruct (negb (size task =? 0)%nat); [| discriminate].
  apply bind_Ok_inv in Hloop as (deps & Hdeps & Hloop).
  assert (Hall : ∀ d, d ∈ deps → dep_edge task_map task_id d).
  { intros d Hd. exists task, deps. auto. }
  clear Hdeps. revert Hloop.
  generalize {| visited := task_id :: visited st;
                rec_stack := task_id :: rec_stack st |}.
  induction deps as [| d deps IHdeps]; intros st0 Hloop; [discriminate |].
  apply bind_Ok_inv in Hloop as ([result st2] & Hd & Hloop).
  destruct result as [cycle' |].
  - injection Hloop as -> ->.
    apply (IH d (path ++ [task_id]) st0 st1 cycle); [| exact Hd].
    apply dep_path_snoc; [exact Hpath |]. apply Hall. now left.
  - apply (IHdeps (λ d' Hd', Hall d' (list_elem_of_further _ _ _ Hd')) st2 Hloop).
Qed.

Lemma detect_loop_sound (limit : nat) task_map (keys : list PyVal)
    (st : dfs_state) (ws : list CycleWarning) :
  detect_loop limit task_map keys st = Ok ws →
  Forall (λ w, closed_path task_map (cw_tasks w)) ws.
Proof.
  revert st ws. induction keys as [| k keys IH]; intros st ws H; cbn in H.
  - injection H as <-. constructor.
  - destruct (negb (py_mem k (visited st))); [| eapply IH, H].
    apply bind_Ok_inv in H as ([cycle st1] & Hc & H).
    apply bind_Ok_inv in H as (ws' & Hws' & H).
    destruct cycle as [c |]; injection H as <-; [| eapply IH, Hws'].
    constructor; [| eapply IH, Hws'].
    eapply (has_cycle_sound limit task_map k []); [exact I | exact Hc].
Qed.

Lemma dict_get_in (k : PyVal) (d : list (PyVal * RawTask)) (v : RawTask) :
  dict_get k d = Some v → ∃ k', (k', v) ∈ d.
Proof.
  induction d as [| [k' v'] d IH]; cbn; [discriminate |].
  destruct (py_eq k' k).
  - intros [= ->]. exists k'. now left.
  - intros H. destruct (IH H) as [k'' Hk]. exists k''. now right.
Qed.

Lemma dict_set_values (P : RawTask → Prop) (k : PyVal) (v : RawTask)
    (d : list (PyVal * RawTask)) :
  P v → Forall (λ kv, P kv.2) d → Forall (λ kv, P kv.2) (dict_set k v d).
Proof.
  intros Hv. induction 1 as [| [k' v'] d Hkv Hd IH]; cbn.
  - repeat constructor. exact Hv.
  - destruct (py_eq k' k); constructor; assumption.
Qed.

Lemma build_task_map_values (P : RawTask → Prop) (tasks : list RawTask)
    (acc task_map : list (PyVal * RawTask)) :
  Forall P tasks → Forall (λ kv, P kv.2) acc →
  build_task_map tasks acc = Ok task_map →
  Forall (λ kv, P kv.2) task_map.
Proof.
  intros Htasks. revert acc.
  induction Htasks as [| t ts Ht _ IH]; intros acc Hacc H; cbn in H.
  - now injection H as <-.
  - destruct (default VNone (t !! "id")) eqn:Hid; cbn in H;
      try discriminate; try (eapply IH, H; try apply dict_set_values; assumption).
Qed.

(** X12. The detector reports no false cycle: whenever it returns, every
    warning lists a path through the map of the batch's tasks in which each
    id has the next one among its dependencies and whose last id equals its
    first. *)
Theorem detect_circular_dependencies_sound (limit : nat)
    (tasks : list RawTask) (ws : list CycleWarning) :
  detect_circular_dependencies limit tasks = Ok ws →
  ∃ task_map,
    build_task_map tasks [] = Ok task_map
    ∧ (∀ task_id task, dict_get task_id task_map = Some task → task ∈ tasks)
    ∧ Forall (λ w, closed_path task_map (cw_tasks w)) ws.
Proof.
  unfold detect_circular_dependencies. intros H.
  apply bind_Ok_inv in H as (task_map & Hmap & H).
  exists task_map. split; [exact Hmap |]. split; [| eapply detect_loop_sound, H].
  intros task_id task Hget. apply dict_get_in in Hget as [k Hk].
  assert (Hall : Forall (λ kv : PyVal * RawTask, kv.2 ∈ tasks) task_map).
  { eapply (build_task_map_values (λ t, t ∈ tasks)); [| constructor | exact Hmap].
    apply Forall_forall. auto. }
  rewrite Forall_forall in Hall. apply (Hall _ Hk).
Qed.

Lemma detect_circular_dependencies_sound_witness :
  ∃ task_map,
    build_task_map [task_with_deps 1 [2]; task_with_deps 2 [1]] [] = Ok task_map
    ∧ (∀ task_id task,
         dict_get task_id task_map = Some task →
         task ∈ [task_with_deps 1 [2]; task_with_deps 2 [1]])
    ∧ Forall (λ w, closed_path task_map (cw_tasks w))
        [ {| cw_tasks := [VInt 1; VInt 2; VInt 1] |} ].
Proof.
  apply (detect_circular_dependencies_sound 1000
           [task_with_deps 1 [2]; task_with_deps 2 [1]]).
  vm_compute; reflexivity.
Defined.

Lemma build_task_map_no_ids (tasks : list RawTask)
    (acc : list (PyVal * RawTask)) :
  Forall (λ t, default VNone (t !! "id") = VNone) tasks →
  build_task_map tasks acc = Ok acc.
Proof.
  induction 1 as [| t ts Ht _ IH]; cbn; [reflexivity |]. now rewrite Ht.
Qed.

(** X13. Tasks without an id are invisible to the detector: a batch in
    which no task has an id (or every id is [None]) yields no warning and no
    exception, whatever its dependency fields hold and however little stack
    is left. *)
Theorem detect_ignores_tasks_without_id (limit : nat) (tasks : list RawTask) :
  Forall (λ t, default VNone (t !! "id") = VNone) tasks →
  detect_circular_dependencies limit tasks = Ok [].
Proof.
  intros H. unfold detect_circular_dependencies.
  rewrite (build_task_map_no_ids tasks [] H). reflexivity.
Qed.

Lemma detect_ignores_tasks_without_id_witness :
  detect_circular_dependencies 0 anonymous_batch = Ok [].
Proof.
  apply (detect_ignores_tasks_without_id 0 anonymous_batch).
  repeat constructor.
Defined.

(** ** Suggestions *)

Lemma py_take_prefix {A : Type} (count : Z) (l : list A) :
  ∃ n, py_take count l = take n l.
Proof. unfold py_take. destruct (0 <=? count); eauto. Qed.

Lemma py_take_length {A : Type} (count : Z) (l : list A) :
  length (py_take count l)
  = if 0 <=? count then Nat.min (Z.to_nat count) (length l)
    else (length l - Z.to_nat (- count))%nat.
Proof.
  unfold py_take. destruct (0 <=? count); rewrite length_take; lia.
Qed.

Lemma analyze_tasks_empty today strptime int_of_str limit
    (strategy : string) completed_ids :
  analyze_tasks today strptime int_of_str limit [] strategy completed_ids
  = Ok {| br_tasks := []; br_summary := EmptySummary; br_warnings := [] |}.
Proof. reflexivity. Qed.

(** What [get_top_suggestions] returns, in terms of the analysis. *)
Lemma get_top_suggestions_inv today strptime int_of_str limit
    (tasks : list RawTask) (count : Z) (strategy : string)
    (ts : TopSuggestions) :
  tasks ≠ [] →
  get_top_suggestions today strptime int_of_str limit tasks count strategy
    = Ok ts →
  ∃ br msg,
    analyze_tasks today strptime int_of_str limit tasks strategy None = Ok br
    ∧ focus_message (br_summary br) = Ok msg
    ∧ ts = {| ts_suggestions :=
                imap (λ i task, make_suggestion (S i) task)
                  (py_take count (br_tasks br));
              ts_message := msg;
              ts_summary := br_summary br;
              ts_all_tasks_analyzed := Some (length (br_tasks br)) |}.
Proof.
  intros Hne H. unfold get_top_suggestions in H.
  apply bind_Ok_inv in H as (br & Hbr & H).
  destruct (analyze_tasks_Ok_summary _ _ _ _ _ _ _ _ Hne Hbr)
    as (_ & _ & _ & _ & Hlen & _).
  destruct (br_tasks br) as [| t l] eqn:Htasks.
  { destruct tasks; [congruence | discriminate Hlen]. }
  apply bind_Ok_inv in H as (msg & Hmsg & H). injection H as <-.
  exists br, msg. rewrite Htasks. auto.
Qed.

(** X14. The suggestions are the top of the ranking: they are the first
    entries of the analysed task list, cut as the slice [[:count]] cuts
    (a negative count drops that many from the end), the [suggestion_rank]
    of each one equals its [rank], and [all_tasks_analyzed] is the size of
    the whole batch. *)
Theorem get_top_suggestions_top_of_ranking today strptime int_of_str limit
    (tasks : list RawTask) (count : Z) (strategy : string)
    (ts : TopSuggestions) :
  tasks ≠ [] →
  get_top_suggestions today strptime int_of_str limit tasks count strategy
    = Ok ts →
  ∃ br,
    analyze_tasks today strptime int_of_str limit tasks strategy None = Ok br
    ∧ (∀ i s, ts_suggestions ts !! i = Some s →
         br_tasks br !! i = Some (sg_task s)
         ∧ suggestion_rank s = S i
         ∧ rank (sg_task s) = Some (suggestion_rank s))
    ∧ length (ts_suggestions ts)
      = (if 0 <=? count then Nat.min (Z.to_nat count) (length tasks)
         else (length tasks - Z.to_nat (- count))%nat)
    ∧ ts_all_tasks_analyzed ts = Some (length tasks)
    ∧ ts_summary ts = br_summary br.
Proof.
  intros Hne H.
  destruct (get_top_suggestions_inv _ _ _ _ _ _ _ _ Hne H)
    as (br & msg & Hbr & _ & ->).
  destruct (analyze_tasks_Ok_tasks _ _ _ _ _ _ _ _ Hne Hbr)
    as (scored & Hscored & Htasks).
  destruct (analyze_tasks_Ok_summary _ _ _ _ _ _ _ _ Hne Hbr)
    as (_ & _ & _ & _ & Hlen & _).
  exists br. cbn [ts_suggestions ts_all_tasks_analyzed ts_summary].
  split; [exact Hbr |]. split; [| split; [| split; [| reflexivity]]].
  - intros i s Hs. rewrite list_lookup_imap in Hs.
    destruct (py_take count (br_tasks br) !! i) as [t |] eqn:Ht; [| discriminate].
    injection Hs as <-. cbn [sg_task suggestion_rank make_suggestion].
    destruct (py_take_prefix count (br_tasks br)) as [n Hn].
    rewrite Hn in Ht. apply lookup_take_Some in Ht as [Ht _].
    split; [exact Ht |]. split; [reflexivity |].
    rewrite Htasks in Ht. now apply add_ranks_lookup in Ht as (t0 & _ & ->).
  - now rewrite length_imap, py_take_length, Hlen.
  - now rewrite Hlen.
Qed.

Lemma get_top_suggestions_top_of_ranking_witness :
  ∃ ts, get_top_suggestions 739000 no_text_dates no_text_ints 1000 mixed_batch
          (-1) "smart_balance" = Ok ts
        ∧ length (ts_suggestions ts) = 3%nat
        ∧ ts_all_tasks_analyzed ts = Some 4%nat.
Proof.
  eexists. split; [vm_compute; reflexivity |].
  assert (Hne : mixed_batch ≠ []) by discriminate.
  match goal with
  | |- context [ts_suggestions ?ts] =>
      assert (Hrun : get_top_suggestions 739000 no_text_dates no_text_ints 1000
                       mixed_batch (-1) "smart_balance" = Ok ts)
        by (vm_compute; reflexivity)
  end.
  destruct (get_top_suggestions_top_of_ranking 739000 no_text_dates
              no_text_ints 1000 mixed_batch (-1) "smart_balance" _ Hne Hrun)
    as (br & _ & _ & Hlen & Hall & _).
  split; [exact Hlen | exact Hall].
Defined.

Lemma make_suggestion_why (i : nat) (task : ScoredTask) :
  why (make_suggestion i task) ≠ []
  ∧ (WhyBalanced ∈ why (make_suggestion i task)
     → why (make_suggestion i task) = [WhyBalanced]).
Proof.
  unfold make_suggestion. cbn [why].
  destruct (suggestion_reasons task) as [| r rs] eqn:Hr;
    [split; [discriminate | reflexivity] |].
  split; [discriminate |]. rewrite <- Hr. clear Hr. intros Hin. exfalso.
  unfold suggestion_reasons in Hin.
  repeat match type of Hin with
         | context [if ?b then _ else _] => destruct b
         end;
    repeat (apply elem_of_app in Hin as [Hin | Hin]);
    repeat (apply elem_of_cons in Hin as [Hin | Hin]; [discriminate |]);
    now apply elem_of_nil in Hin.
Qed.

(** X15. A suggestion always says why: its [why] list is never empty, and
    the generic reason stands alone, it is given only when no specific
    reason applies. *)
Theorem get_top_suggestions_why today strptime int_of_str limit
    (tasks : list RawTask) (count : Z) (strategy : string)
    (ts : TopSuggestions) (s : Suggestion) :
  get_top_suggestions today strptime int_of_str limit tasks count strategy
    = Ok ts →
  s ∈ ts_suggestions ts →
  why s ≠ [] ∧ (WhyBalanced ∈ why s → why s = [WhyBalanced]).
Proof.
  intros H Hs. unfold get_top_suggestions in H.
  apply bind_Ok_inv in H as (br & _ & H).
  destruct (br_tasks br) as [| t l].
  { injection H as <-. now apply elem_of_nil in Hs. }
  apply bind_Ok_inv in H as (msg & _ & H). injection H as <-.
  cbn [ts_suggestions] in Hs.
  apply list_elem_of_lookup in Hs as [i Hi]. rewrite list_lookup_imap in Hi.
  destruct (py_take count (t :: l) !! i) as [task |]; [| discriminate].
  injection Hi as <-. apply make_suggestion_why.
Qed.

Lemma get_top_suggestions_why_witness :
  ∃ ts s, get_top_suggestions 739000 no_text_dates no_text_ints 1000 mixed_batch
            3 "smart_balance" = Ok ts
          ∧ ts_suggestions ts !! 2%nat = Some s
          ∧ why s ≠ [].
Proof.
  do 2 eexists. split; [vm_compute; reflexivity |].
  split; [reflexivity |].
  match goal with
  | |- why ?s ≠ [] =>
      eapply (get_top_suggestions_why 739000 no_text_dates no_text_ints 1000
                mixed_batch 3 "smart_balance" _ s)
  end.
  - vm_compute; reflexivity.
  - cbn [ts_suggestions]. do 2 right. now left.
Defined.

(** X16. The overall message speaks about the whole analysed batch, not
    only about the suggestions shown, and in a fixed order of precedence:
    the number of overdue tasks if there is one, else the number of CRITICAL
    tasks if there is one, else the number of HIGH tasks if there is one,
    else the calm message. *)
Theorem get_top_suggestions_message today strptime int_of_str limit
    (tasks : list RawTask) (count : Z) (strategy : string)
    (ts : TopSuggestions) :
  tasks ≠ [] →
  get_top_suggestions today strptime int_of_str limit tasks count strategy
    = Ok ts →
  ∃ br,
    analyze_tasks today strptime int_of_str limit tasks strategy None = Ok br
    ∧ ts_message ts =
        if (0 <? overdue_tasks (br_tasks br))%nat
        then OverdueFocus (overdue_tasks (br_tasks br))
        else if (0 <? tasks_at_level CRITICAL (br_tasks br))%nat
        then CriticalFocus (tasks_at_level CRITICAL (br_tasks br))
        else if (0 <? tasks_at_level HIGH (br_tasks br))%nat
        then HighFocus (tasks_at_level HIGH (br_tasks br))
        else NoUrgentTasks.
Proof.
  intros Hne H.
  destruct (get_top_suggestions_inv _ _ _ _ _ _ _ _ Hne H)
    as (br & msg & Hbr & Hmsg & ->).
  destruct (analyze_tasks_Ok_summary _ _ _ _ _ _ _ _ Hne Hbr)
    as (bp & p & Hsum & _).
  exists br. split; [exact Hbr |]. cbn [ts_message].
  rewrite Hsum in Hmsg. cbn [focus_message] in Hmsg.
  repeat match type of Hmsg with
         | context [if ?b then _ else _] => destruct b
         end; now injection Hmsg as <-.
Qed.

Lemma get_top_suggestions_message_witness :
  ∃ ts, get_top_suggestions 739000 no_text_dates no_text_ints 1000 mixed_batch
          1 "smart_balance" = Ok ts
        ∧ ts_message ts = OverdueFocus 1
        ∧ (n_title ∘ normalized ∘ sg_task <$> ts_suggestions ts) = ["a"%string].
Proof.
  eexists. split; [vm_compute; reflexivity |].
  split; [| reflexivity].
  assert (Hne : mixed_batch ≠ []) by discriminate.
  match goal with
  | |- ts_message ?ts = _ =>
      assert (Hrun : get_top_suggestions 739000 no_text_dates no_text_ints 1000
                       mixed_batch 1 "smart_balance" = Ok ts)
        by (vm_compute; reflexivity)
  end.
  destruct (get_top_suggestions_message 739000 no_text_dates no_text_ints 1000
              mixed_batch 1 "smart_balance" _ Hne Hrun) as (br & Hbr & Hmsg).
  reflexivity.
Defined.

(** X17. Suggesting fails exactly when analysing fails: for every count,
    [get_top_suggestions] returns if and only if [analyze_tasks] returns on
    the same batch and strategy with no completed ids. *)
Theorem get_top_suggestions_returns_iff today strptime int_of_str limit
    (tasks : list RawTask) (count : Z) (strategy : string) :
  is_Ok (get_top_suggestions today strptime int_of_str limit tasks count
           strategy)
  ↔ is_Ok (analyze_tasks today strptime int_of_str limit tasks strategy None).
Proof.
  unfold get_top_suggestions. split.
  - intros [ts H]. apply bind_Ok_inv in H as (br & Hbr & _). now exists br.
  - intros [br Hbr]. rewrite Hbr, bind_Ok.
    destruct (br_tasks br) as [| t l] eqn:Htasks; [eexists; reflexivity |].
    destruct tasks as [| t0 ts0].
    { rewrite analyze_tasks_empty in Hbr. injection Hbr as <-. discriminate. }
    assert (Hne : t0 :: ts0 ≠ []) by discriminate.
    destruct (analyze_tasks_Ok_summary _ _ _ _ _ _ _ _ Hne Hbr)
      as (bp & p & -> & _).
    cbn [focus_message].
    repeat match goal with
           | |- context [if ?b then _ else _] => destruct b
           end; rewrite bind_Ok; eexists; reflexivity.
Qed.

Lemma level_of_at_least (x : Q) :
  match level_of x with
  | CRITICAL => (75 <= x)%Q
  | HIGH => (60 <= x)%Q
  | MEDIUM => (40 <= x)%Q
  | LOW | MINIMAL => True
  end.
Proof.
  unfold level_of.
  destruct (Qle_bool 75 x) eqn:H75; [now apply Qle_bool_iff |].
  destruct (Qle_bool 60 x) eqn:H60; [now apply Qle_bool_iff |].
  destruct (Qle_bool 40 x) eqn:H40; [now apply Qle_bool_iff |].
  now destruct (Qle_bool 25 x).
Qed.

Lemma Qle_bool_round2 (k : Z) (x : Q) :
  (inject_Z k <= x)%Q → Qle_bool (inject_Z k) (round2 x) = true.
Proof. intros H. now apply Qle_bool_iff, round2_ge. Qed.

(** X18. The action advice is never weaker than the priority level: a task
    gets the urgent advice exactly when it is overdue; otherwise a CRITICAL
    task is told to do it first (at most two hours) or to block time today, a
    HIGH task is never told less than to schedule time this week, and a
    MEDIUM task is never told that it is of lower priority. *)
Theorem advice_never_below_level today strptime int_of_str
    (task : RawTask) all_tasks (strategy : string) completed_ids
    (r : ScoredTask) :
  calculate_task_score today strptime int_of_str task all_tasks strategy
    completed_ids = Ok r →
  (generate_action_advice r = AdviceUrgent
   ↔ is_overdue (ex_urgency (explanations r)) = true)
  ∧ (is_overdue (ex_urgency (explanations r)) = false →
     match priority_level r with
     | CRITICAL =>
         generate_action_advice r =
           if n_estimated_hours (normalized r) <=? 2
           then AdviceDoFirst else AdviceBlockTime
     | HIGH =>
         generate_action_advice r ≠ AdviceRadar
         ∧ generate_action_advice r ≠ AdviceLater
     | MEDIUM => generate_action_advice r ≠ AdviceLater
     | LOW | MINIMAL => True
     end).
Proof.
  intros Hr.
  destruct (calculate_task_score_inv _ _ _ _ _ _ _ _ Hr)
    as (_ & p & f & d & _ & _ & _ & _ & Hs & Hl & _).
  unfold generate_action_advice. rewrite Hs, Hl.
  set (final := weighted_sum p _ _ f d). clearbody final.
  pose proof (level_of_at_least final) as Hat.
  change 75%Q with (inject_Z 75). change 60%Q with (inject_Z 60).
  change 40%Q with (inject_Z 40).
  split.
  - destruct (is_overdue _); [split; reflexivity |].
    split; [| discriminate].
    repeat match goal with
           | |- context [if ?b then _ else _] => destruct b
           end; discriminate.
  - intros ->. destruct (level_of final); try exact I.
    + now rewrite (Qle_bool_round2 75 final Hat).
    + rewrite (Qle_bool_round2 60 final Hat).
      destruct (Qle_bool (inject_Z 75) (round2 final));
        [destruct (_ <=? 2) |]; split; discriminate.
    + rewrite (Qle_bool_round2 40 final Hat).
      destruct (Qle_bool (inject_Z 75) (round2 final));
        [destruct (_ <=? 2) |];
        [| | destruct (Qle_bool (inject_Z 60) (round2 final))]; discriminate.
Qed.

Lemma advice_never_below_level_witness :
  ∃ r, calculate_task_score 739000 no_text_dates no_text_ints messy_task
         (Some [messy_task]) "fastest_wins" None = Ok r
       ∧ priority_level r = HIGH
       ∧ generate_action_advice r ≠ AdviceLater.
Proof.
  eexists. split; [vm_compute; reflexivity |]. split; [reflexivity |].
  match goal with
  | |- generate_action_advice ?r ≠ _ =>
      assert (Hrun : calculate_task_score 739000 no_text_dates no_text_ints
                       messy_task (Some [messy_task]) "fastest_wins" None = Ok r)
        by (vm_compute; reflexivity)
  end.
  destruct (advice_never_below_level 739000 no_text_dates no_text_ints
              messy_task (Some [messy_task]) "fastest_wins" None _ Hrun)
    as [_ Hlevel].
  exact (proj2 (Hlevel eq_refl)).
Defined.

(** ** Dependency scorer: completed ids *)

Lemma py_mem_subseteq (x : PyVal) (c c' : list PyVal) :
  c ⊆ c' → py_mem x c = true → py_mem x c' = true.
Proof.
  unfold py_mem. intros Hsub H. apply existsb_exists in H as (y & Hy & Hxy).
  apply existsb_exists. exists y. split; [| exact Hxy].
  apply list_elem_of_In, Hsub, list_elem_of_In, Hy.
Qed.

Lemma unmet_length_antitone (deps c c' : list PyVal) :
  c ⊆ c' →
  (length (filter (λ d, negb (py_mem d c')) deps)
   ≤ length (filter (λ d, negb (py_mem d c)) deps))%nat.
Proof.
  intros Hsub. induction deps as [| d deps IH]; [reflexivity |].
  rewrite !filter_cons.
  destruct (py_mem d c) eqn:Hc.
  - rewrite (py_mem_subseteq d c c' Hsub Hc).
    repeat case_decide; cbn [negb Is_true] in *; try tauto; exact IH.
  - destruct (py_mem d c'); repeat case_decide; cbn [negb Is_true] in *;
      try tauto; cbn [length]; lia.
Qed.

Lemma own_dependency_score_monotone (deps c c' : list PyVal) :
  c ⊆ c' →
  (own_dependency_score deps c <= own_dependency_score deps c')%Q.
Proof.
  intros Hsub. unfold own_dependency_score.
  destruct deps as [| d ds]; [apply Qle_refl |].
  pose proof (unmet_length_antitone (d :: ds) c c' Hsub) as Hlen.
  destruct (filter (λ d0, negb (py_mem d0 c)) (d :: ds)) as [| u us],
           (filter (λ d0, negb (py_mem d0 c')) (d :: ds)) as [| u' us'];
    cbn [length] in Hlen; try lia; qlia.
Qed.

(** X7. Completing dependencies never lowers a dependency score: with
    a larger list of completed ids the scorer still returns, and its score
    is at least what it was. *)
Theorem dependency_score_monotone_in_completed (task_id : PyVal)
    (dependencies : list PyVal) (all_tasks : list RawTask)
    (c c' : list PyVal) (s : Q) (e : list DependencyExp) :
  c ⊆ c' →
  calculate_dependency_score task_id dependencies all_tasks (Some c)
    = Ok (s, e) →
  ∃ s' e',
    calculate_dependency_score task_id dependencies all_tasks (Some c')
      = Ok (s', e')
    ∧ (s <= s')%Q.
Proof.
  intros Hsub H.
  pose proof (own_dependency_score_monotone dependencies c c' Hsub) as Hown.
  unfold calculate_dependency_score, own_dependency_score in *.
  cbn [default from_option id] in *. unfold default in *. cbn [from_option id] in *.
  set (own := match dependencies with [] => _ | _ => _ end) in H.
  set (own' := match dependencies with [] => _ | _ => _ end).
  assert (Hq : (own.1 <= own'.1)%Q).
  { subst own own'. destruct dependencies as [| d ds]; [apply Qle_refl |].
    destruct (filter (λ d0, negb (py_mem d0 c)) (d :: ds)),
             (filter (λ d0, negb (py_mem d0 c')) (d :: ds)); exact Hown. }
  clearbody own own'. destruct own as [q eq], own' as [q' eq'].
  cbn [fst] in Hq. clear Hown.
  apply bind_Ok_inv in H as ([q1 e1] & Hb & H). injection H as <- <-.
  assert (Hclamp : ∀ x y : Q, (x <= y)%Q →
                     (Qmax 0 (Qmin 100 x) <= Qmax 0 (Qmin 100 y))%Q).
  { intros x y Hxy. apply Q.max_le_compat_l, Q.min_le_compat_l, Hxy. }
  destruct task_id;
    try (injection Hb as <- <-; do 2 eexists; split;
         [reflexivity | now apply Hclamp]);
    apply bind_Ok_inv in Hb as (n & -> & Hb); rewrite bind_Ok;
    (destruct (0 <? n)%nat; injection Hb as <- <-; do 2 eexists; split;
     try reflexivity; apply Hclamp; lra).
Qed.

Lemma dependency_score_monotone_in_completed_witness :
  ∃ s s' e e',
    calculate_dependency_score (VInt 1) [VInt 1] [self_dependent] (Some [])
      = Ok (s, e)
    ∧ calculate_dependency_score (VInt 1) [VInt 1] [self_dependent]
        (Some [VInt 1]) = Ok (s', e')
    ∧ (s == 65)%Q ∧ (s' == 95)%Q.
Proof.
  assert (Hsub : [] ⊆ [VInt 1]) by apply list_subseteq_nil.
  destruct (dependency_score_monotone_in_completed (VInt 1) [VInt 1]
              [self_dependent] [] [VInt 1] _ _ Hsub eq_refl)
    as (s' & e' & Hrun & _).
  do 4 eexists. split; [reflexivity |]. split; [exact Hrun |].
  split; [reflexivity |].
  vm_compute in Hrun. injection Hrun as <- _. reflexivity.
Defined.
